(** * ipv666: the intake pipeline and the address-file writer

    A shallow embedding of [common/input/input.go] and
    [common/statemachine/addrupdate.go].  The Go functions are written in a
    small state-and-panic monad over a [World]; the packages the two files
    import but that are not part of them ([shell], [addressing], [fs],
    [modeling], [zrandom], [data], [os], [bufio], [time], [metrics]) are
    collaborators: every call into them is answered by a handler and is
    recorded, in order, in the world's trace. *)

From Stdlib Require Import ZArith String Ascii List Lia.
From Stdlib Require Import Floats.SpecFloat.
From Stdlib Require Import Numbers.DecimalString.
From stdpp Require Import gmap strings list.
Import ListNotations.

Open Scope string_scope.
Open Scope Z_scope.

(** ** Go values *)

(** A Go [error] value that is not nil; [option error] is a Go [error]. *)
Inductive error := mkError (msg : string).

(** [float64], with the comparison of IEEE 754 ([SFltb]): a NaN is below
    nothing and nothing is below a NaN. *)
Definition float64 := spec_float.
Definition posInf : float64 := S754_infinity false.

(** [net.IP] is a byte slice; [*net.IP] points to one.  The slices of
    pointers the two files handle come from the readers of [addressing]
    and [data], which allocate every address they return: no pointer in
    them is nil, and the [heap] gives every pointer its bytes. *)
Definition IP := list Byte.byte.
Definition ptr := N.
Definition heap := ptr -> IP.

#[global] Instance byte_eq_dec : EqDecision Byte.byte := Byte.byte_eq_dec.
#[global] Instance byte_countable : Countable Byte.byte :=
  inj_countable Byte.to_N Byte.of_N Byte.of_to_N.

(** [len] of a slice, as a Go [int]. *)
Definition len {A} (l : list A) : Z := Z.of_nat (length l).

(** *** [fmt.Sprintf]
    The operands the two files pass are strings and ints, under the verbs
    [%s] and [%d]; a verb paired with the other operand type, a verb with
    no operand left and a format ending in [%] are rendered the way [fmt]
    reports them.  Flags, widths and operands left over do not occur. *)
Inductive arg := AStr (s : string) | AInt (z : Z).

Definition itoa (z : Z) : string := NilZero.string_of_int (Z.to_int z).

Definition render (verb : ascii) (a : arg) : string :=
  match a with
  | AStr s =>
      if (Ascii.eqb verb "s" || Ascii.eqb verb "v")%bool then s
      else "%!" ++ String verb ("(string=" ++ s ++ ")")
  | AInt z =>
      if (Ascii.eqb verb "d" || Ascii.eqb verb "v")%bool then itoa z
      else "%!" ++ String verb ("(int=" ++ itoa z ++ ")")
  end.

Fixpoint Sprintf (format : string) (args : list arg) : string :=
  match format with
  | EmptyString => EmptyString
  | String c EmptyString =>
      if Ascii.eqb c "%" then "%!(NOVERB)" else String c EmptyString
  | String c (String v rest as tl) =>
      if Ascii.eqb c "%" then
        if Ascii.eqb v "%" then String "%" (Sprintf rest args)
        else match args with
             | a :: args' => render v a ++ Sprintf rest args'
             | [] => "%!" ++ String v ("(MISSING)" ++ Sprintf rest [])
             end
      else String c (Sprintf tl args)
  end.

(** *** [log.Printf]
    A log line is kept as the format and its operands, unrendered. *)
Inductive logarg :=
| LStr (s : string)
| LInt (z : Z)
| LFloat (f : float64)
| LErr (e : error).

Record logline := LogLine { l_format : string; l_args : list logarg }.

(** ** Configuration: the fields of [config.Configuration] the two files read *)
Record Configuration := {
  InputMinAddresses : Z;
  InputEmitFreq : Z;
  InputEntropyThreshold : float64;
  InputEntropyBitLength : Z;
  BaseOutputDirectory : string;
  OutputFileType : string
}.

(** ** Collaborators
    What the imported packages declare: their types, their constants and
    their functions without effects. *)
Class Externals := {
  (** the outside of the process: file system, operator, clock, metrics *)
  Env : Type;
  (** [statemachine.State] and its constant [NETWORK_GROUP] *)
  State : Type;
  NETWORK_GROUP : State;
  (** [modeling.NewAddressModel] and the model's [Name] *)
  AddressModel : Type;
  NewAddressModel : string -> AddressModel;
  Name : AddressModel -> string;
  (** [*os.File], [time.Time], [time.Duration] *)
  File : Type;
  Time : Type;
  Duration : Type;
  (** [zrandom.GetEntropyOfBitsFromRight], taken to read its slice only *)
  GetEntropyOfBitsFromRight : IP -> Z -> float64;
  (** [net.IP.String], which [%s] calls on an address *)
  IPString : IP -> string;
  (** the path methods of [config.Configuration] *)
  GetStateFilePath : Configuration -> string;
  GetPingResultDirPath : Configuration -> string;
  GetGeneratedModelDirPath : Configuration -> string;
  GetCleanPingDirPath : Configuration -> string;
  GetOutputFilePath : Configuration -> string
}.

(** [os.O_APPEND|os.O_WRONLY|os.O_CREATE] (Linux values) and mode [0644]. *)
Definition O_WRONLY : Z := 1.
Definition O_CREATE : Z := 64.
Definition O_APPEND : Z := 1024.
Definition perm0644 : Z := 420.

(** How a Go call ends: with its results, or in a panic. *)
Inductive outcome (A : Type) :=
| Ok (a : A)
| Panic (msg : string).
Arguments Ok {A} a.
Arguments Panic {A} msg.

Section Calls.
Context `{Ext : Externals}.

(** The calls that leave the two files, and what each gives back. *)
Inductive call :=
| PromptForApproval (prompt errMsg : string)
| ReadIPsFromBinaryFile (path : string)
| ReadIPsFromHexFile (path : string)
| GetTimedFilePath (dir : string)
| WriteIPsToHexFile (path : string) (ips : list ptr)
| SetStateFile (path : string) (st : State)
| DeleteAllFilesInDirectory (dir : string)
| Save (m : AddressModel) (path : string)
| GetCleanPingResults (dir : string)
| OpenFile (path : string) (flag perm : Z)
| WriteString (f : File) (s : string)
| Write (f : File) (b : list Byte.byte)
| Flush (f : File)
| Close (f : File)
| Now
| Since (t : Time)
| Update (d : Duration).

Definition resp (c : call) : Type :=
  match c with
  | PromptForApproval _ _ => option error
  | ReadIPsFromBinaryFile _ | ReadIPsFromHexFile _ => (list ptr * option error)%type
  | GetTimedFilePath _ => string
  | WriteIPsToHexFile _ _ => option error
  | SetStateFile _ _ => option error
  | DeleteAllFilesInDirectory _ => (Z * option error)%type
  | Save _ _ => option error
  | GetCleanPingResults _ => (list ptr * option error)%type
  | OpenFile _ _ _ => (File * option error)%type
  | WriteString _ _ | Write _ _ => (Z * option error)%type
  | Flush _ | Close _ => option error
  | Now => Time
  | Since _ => Duration
  | Update _ => unit
  end.

Inductive event := Ev (c : call) (r : resp c).

Definition call_of (e : event) : call := let 'Ev c _ := e in c.

(** The calls of the intake pipeline that change files of the workspace:
    the reset, the model bootstrap, the result write, the state advance. *)
Definition is_mutation (c : call) : bool :=
  match c with
  | DeleteAllFilesInDirectory _ | Save _ _
  | WriteIPsToHexFile _ _ | SetStateFile _ _ => true
  | _ => false
  end.

(** ** The world and the monad *)
Record World := mkWorld {
  w_heap : heap;            (** the address objects the pointers refer to *)
  w_log : list logline;     (** what [log.Printf] has printed *)
  w_trace : list event;     (** the collaborator calls made, oldest first *)
  w_env : Env
}.

End Calls.

(** How the outside answers a call: from its own state and the addresses
    the pointers refer to, which it reads only. *)
Class Handler `{Ext : Externals} :=
  handle : forall c : call, Env -> heap -> resp c * Env.

Section Monad.
Context `{Ext : Externals} {Hd : Handler}.

Definition M (A : Type) : Type := World -> outcome A * World.

Definition ret {A} (a : A) : M A := fun w => (Ok a, w).

Definition bind {A B} (m : M A) (k : A -> M B) : M B :=
  fun w => match m w with
           | (Ok a, w') => k a w'
           | (Panic msg, w') => (Panic msg, w')
           end.

Definition panic {A} (msg : string) : M A := fun w => (Panic msg, w).

Definition invoke (c : call) : M (resp c) :=
  fun w => let (r, e) := handle c (w_env w) (w_heap w) in
           (Ok r, mkWorld (w_heap w) (w_log w) (w_trace w ++ [Ev c r]) e).

Definition Printf (format : string) (args : list logarg) : M unit :=
  fun w => (Ok tt, mkWorld (w_heap w) (w_log w ++ [LogLine format args])
                           (w_trace w) (w_env w)).

(** [*p] *)
Definition deref (p : ptr) : M IP := fun w => (Ok (w_heap w p), w).

(** [a % b] on Go ints: the remainder has the sign of [a]; a zero divisor
    panics. *)
Definition go_rem (a b : Z) : M Z :=
  if b =? 0 then panic "runtime error: integer divide by zero"
  else ret (Z.rem a b).

End Monad.

Notation "x <- m ;; k" := (bind m (fun x => k))
  (at level 62, m at next level, right associativity).
Notation "m ;;; k" := (bind m (fun _ => k))
  (at level 62, right associativity).

(** Go's [if err != nil { return err }] in front of the rest of a body. *)
Notation "'check' err ;; k" :=
  (match err with Some e => ret (Some e) | None => k end)
  (at level 62, err at next level, right associativity).

(** ** Package [input] ([common/input/input.go]) *)
Section Input.
Context `{Ext : Externals} {Hd : Handler}.

(** Modelled from the spec: the progress line of [addressing.GetUniqueIPs],
    whose wording the spec does not give. *)
Definition progressFormat : string := "Processing %d out of %d.".

(** Modelled from the spec: the loop of [addressing.GetUniqueIPs], which
    [removeDuplicateIPs] calls and which is not among the source files.
    The spec (4.2): a single pass over the list with a map from raw byte
    value to a first-seen flag; a progress log every N items, N the emit
    frequency; no error conditions. *)
Fixpoint uniqueLoop (total updateFreq i : Z) (rest : list ptr)
    (checkMap : gmap IP bool) (toReturn : list ptr) : M (list ptr) :=
  match rest with
  | [] => ret toReturn
  | ip :: rest' =>
      (if Z.rem i updateFreq =? 0
       then Printf progressFormat [LInt i; LInt total] else ret tt) ;;;
      key <- deref ip ;;
      match checkMap !! key with
      | Some _ => uniqueLoop total updateFreq (i + 1) rest' checkMap toReturn
      | None => uniqueLoop total updateFreq (i + 1) rest'
                  (<[key := true]> checkMap) (toReturn ++ [ip])
      end
  end.

(** Modelled from the spec: [addressing.GetUniqueIPs], the pass above from
    the first address, with nothing seen and nothing taken. *)
Definition GetUniqueIPs (ips : list ptr) (updateFreq : Z) : M (list ptr) :=
  uniqueLoop (len ips) updateFreq 0 ips ∅ [].

Definition getIPsFromFile (inputFilePath inputFileType : string)
    : M (list ptr * option error) :=
  r <- (if String.eqb inputFileType "bin"
        then invoke (ReadIPsFromBinaryFile inputFilePath)
        else invoke (ReadIPsFromHexFile inputFilePath)) ;;
  let '(toReturn, err) := r in
  match err with
  | Some e =>
      Printf "Error thrown when reading addresses from file '%s': %e"
        [LStr inputFilePath; LErr e]
  | None =>
      Printf "Successfully read %d addresses from %s file at '%s'."
        [LInt (len toReturn); LStr inputFileType; LStr inputFilePath]
  end ;;;
  ret (toReturn, err).

Definition updateState (conf : Configuration) : M (option error) :=
  err <- invoke (SetStateFile (GetStateFilePath conf) NETWORK_GROUP) ;;
  match err with
  | Some e =>
      Printf "Error thrown when attempting to update state file at path '%s': %e"
        [LStr (GetStateFilePath conf); LErr e] ;;;
      ret (Some e)
  | None =>
      Printf "Successfully updated state file at path '%s'."
        [LStr (GetStateFilePath conf)] ;;;
      ret None
  end.

Definition writeNewAddresses (toWrite : list ptr) (conf : Configuration)
    : M (option error) :=
  outputPath <- invoke (GetTimedFilePath (GetPingResultDirPath conf)) ;;
  Printf "Writing %d IP addresses to file at path '%s'."
    [LInt (len toWrite); LStr outputPath] ;;;
  err <- invoke (WriteIPsToHexFile outputPath toWrite) ;;
  match err with
  | Some e =>
      Printf "Error thrown when writing addresses to path '%s': %e"
        [LStr outputPath; LErr e] ;;;
      ret (Some e)
  | None =>
      Printf "Successfully wrote IP address list to '%s'." [LStr outputPath] ;;;
      ret None
  end.

Definition tooFewPrompt (count : Z) (conf : Configuration) : string :=
  Sprintf "The resulting list of addresses is only %d long, and we recommend having at least %d to get good results. Continue? [y/N]"
    [AInt count; AInt (InputMinAddresses conf)].
Definition tooFewErrMsg : string :=
  Sprintf "Exiting. Please add more addresses to your input list and try again." [].

Definition confirmTooFew (count : Z) (conf : Configuration) : M (option error) :=
  let prompt := tooFewPrompt count conf in
  let errMsg := tooFewErrMsg in
  err <- invoke (PromptForApproval prompt errMsg) ;;
  match err with
  | Some e => ret (Some e)
  | None => ret None
  end.

Definition cleanUpPrompt (inputFilePath : string) : string :=
  Sprintf "Provided input file at path '%s'. Starting with an input file requires cleaning up all existing state from previous runs. Continue? [y/N]"
    [AStr inputFilePath].
Definition cleanUpErrMsg (conf : Configuration) : string :=
  Sprintf "Exiting. Please backup all existing state (all directories under '%s') and try again."
    [AStr (BaseOutputDirectory conf)].

Definition confirmCleanUpExisting (inputFilePath : string) (conf : Configuration)
    : M (option error) :=
  let prompt := cleanUpPrompt inputFilePath in
  let errMsg := cleanUpErrMsg conf in
  err <- invoke (PromptForApproval prompt errMsg) ;;
  match err with
  | Some e => ret (Some e)
  | None => ret None
  end.

(** The body of the [for i, ip := range ips] loop of
    [filterOutHighEntropyIPs], from index [i] on. *)
Fixpoint filterLoop (conf : Configuration) (total i : Z) (rest : list ptr)
    (toReturn : list ptr) : M (list ptr) :=
  match rest with
  | [] => ret toReturn
  | ip :: rest' =>
      r <- go_rem i (InputEmitFreq conf) ;;
      (if r =? 0
       then Printf "Processing %d out of %d for high entropy IPs."
              [LInt i; LInt total]
       else ret tt) ;;;
      ipBytes <- deref ip ;;
      let entropy := GetEntropyOfBitsFromRight ipBytes (InputEntropyBitLength conf) in
      if SFltb entropy (InputEntropyThreshold conf)
      then filterLoop conf total (i + 1) rest' (toReturn ++ [ip])
      else filterLoop conf total (i + 1) rest' toReturn
  end.

Definition filterOutHighEntropyIPs (ips : list ptr) (conf : Configuration)
    : M (list ptr) :=
  Printf "Now removing high entropy IP addresses from list of length %d (%f threshold, %d bits)."
    [LInt (len ips); LFloat (InputEntropyThreshold conf);
     LInt (InputEntropyBitLength conf)] ;;;
  toReturn <- filterLoop conf (len ips) 0 ips [] ;;
  Printf "Resulting list is %d long (removed %d high entropy addresses)."
    [LInt (len toReturn); LInt (len ips - len toReturn)] ;;;
  ret toReturn.

Definition removeDuplicateIPs (ips : list ptr) (conf : Configuration)
    : M (list ptr) :=
  Printf "Now removing duplicates from list of IP addresses of length %d."
    [LInt (len ips)] ;;;
  toReturn <- GetUniqueIPs ips (InputEmitFreq conf) ;;
  Printf "Resulting list is %d long (removed %d duplicates)."
    [LInt (len toReturn); LInt (len ips - len toReturn)] ;;;
  ret toReturn.

Definition cleanUpWorkingDirectories (conf : Configuration) : M (option error) :=
  Printf "Now deleting all regular files (recursively) starting in directory '%s'."
    [LStr (BaseOutputDirectory conf)] ;;;
  r <- invoke (DeleteAllFilesInDirectory (BaseOutputDirectory conf)) ;;
  let '(numDeleted, err) := r in
  match err with
  | Some e =>
      Printf "Error thrown when deleting files under directory '%s': %e"
        [LStr (BaseOutputDirectory conf); LErr e] ;;;
      ret (Some e)
  | None =>
      Printf "Successfully deleted %d files." [LInt numDeleted] ;;;
      ret None
  end.

Definition createBlankModel (inputFilePath : string) (conf : Configuration)
    : M (option error) :=
  Printf "Now creating a blank statistical model." [] ;;;
  let model := NewAddressModel (Sprintf "Model from %s" [AStr inputFilePath]) in
  outputPath <- invoke (GetTimedFilePath (GetGeneratedModelDirPath conf)) ;;
  Printf "Writing blank statistical model with name '%s' to file '%s'."
    [LStr (Name model); LStr outputPath] ;;;
  err <- invoke (Save model outputPath) ;;
  match err with
  | Some e =>
      Printf "Error thrown when saving model '%s' to file '%s': %e"
        [LStr (Name model); LStr outputPath; LErr e] ;;;
      ret (Some e)
  | None => ret None
  end.

Definition PrepareFromInputFile (inputFilePath fileType : string)
    (conf : Configuration) : M (option error) :=
  (* Confirm that cleaning up is ok *)
  err <- confirmCleanUpExisting inputFilePath conf ;;
  check err ;;
  (* Load addresses from input file *)
  r <- getIPsFromFile inputFilePath fileType ;;
  let '(addrs, err) := r in
  check err ;;
  (* Unique addresses *)
  addrs <- removeDuplicateIPs addrs conf ;;
  (* Filter out PSLAAC addresses *)
  addrs <- filterOutHighEntropyIPs addrs conf ;;
  (* Check that enough addresses remain *)
  err <- (if len addrs <? InputMinAddresses conf
          then confirmTooFew (len addrs) conf
          else ret None) ;;
  check err ;;
  (* Delete all existing files in all directories *)
  err <- cleanUpWorkingDirectories conf ;;
  check err ;;
  (* Create an empty model and write to disk *)
  err <- createBlankModel inputFilePath conf ;;
  check err ;;
  (* Write addresses to ping results file path; the result is dropped *)
  writeNewAddresses addrs conf ;;;
  (* Update state file *)
  err <- updateState conf ;;
  check err ;;
  ret None.

End Input.

(** ** Package [statemachine] ([common/statemachine/addrupdate.go]) *)
Section AddrUpdate.
Context `{Ext : Externals} {Hd : Handler}.

(** [bufio.NewWriter(file)]: the writer is known by the file it wraps. *)
Definition NewWriter (file : File) : File := file.

(** The format ["%s\n"]. *)
Definition lineFormat : string := String "%" (String "s" (String "010" EmptyString)).

(** [for _, addr := range cleanPings { writer.WriteString(fmt.Sprintf("%s\n", addr)) }];
    [%s] on an address is its [String()]; what [WriteString] returns is
    dropped. *)
Fixpoint writeTextLoop (writer : File) (cleanPings : list ptr) : M unit :=
  match cleanPings with
  | [] => ret tt
  | addr :: rest =>
      a <- deref addr ;;
      invoke (WriteString writer (Sprintf lineFormat [AStr (IPString a)])) ;;;
      writeTextLoop writer rest
  end.

(** [for _, addr := range cleanPings { toWrite := ([]byte)( *addr); writer.Write(toWrite) }] *)
Fixpoint writeBinLoop (writer : File) (cleanPings : list ptr) : M unit :=
  match cleanPings with
  | [] => ret tt
  | addr :: rest =>
      toWrite <- deref addr ;;
      invoke (Write writer toWrite) ;;;
      writeBinLoop writer rest
  end.

Definition unexpectedFormat : string :=
  "Unexpected file format for output (%s). Defaulting to text.".

Definition updateAddressFile (conf : Configuration) : M (option error) :=
  r <- invoke (GetCleanPingResults (GetCleanPingDirPath conf)) ;;
  let '(cleanPings, err) := r in
  check err ;;
  let outputPath := GetOutputFilePath conf in
  Printf "Updating file at path '%s' with %d newly-found IP addresses."
    [LStr outputPath; LInt (len cleanPings)] ;;;
  r <- invoke (OpenFile outputPath
                 (Z.lor (Z.lor O_APPEND O_WRONLY) O_CREATE) perm0644) ;;
  let '(file, err) := r in
  let writer := NewWriter file in
  check err ;;
  (* defer file.Close(): runs when the function returns, see below *)
  start <- invoke Now ;;
  (if negb (String.eqb (OutputFileType conf) "bin") then
     (if negb (String.eqb (OutputFileType conf) "text")
      then Printf unexpectedFormat [LStr (OutputFileType conf)]
      else ret tt) ;;;
     writeTextLoop writer cleanPings
   else
     writeBinLoop writer cleanPings) ;;;
  invoke (Flush writer) ;;;
  elapsed <- invoke (Since start) ;;
  invoke (Update elapsed) ;;;
  Printf "Finished writing %d addresses to '%s'."
    [LInt (len cleanPings); LStr outputPath] ;;;
  (* the deferred file.Close() *)
  invoke (Close file) ;;;
  ret None.

End AddrUpdate.

(** ** Notions the properties are stated with *)
Section Notions.
Context `{Ext : Externals} {Hd : Handler}.

(** The test of [filterOutHighEntropyIPs]: the score of the address's
    rightmost [InputEntropyBitLength] bits is below the threshold. *)
Definition lowEntropy (conf : Configuration) (h : heap) (ip : ptr) : bool :=
  SFltb (GetEntropyOfBitsFromRight (h ip) (InputEntropyBitLength conf))
        (InputEntropyThreshold conf).


(** Each distinct byte value once, in order of first appearance: walk the
    list and take an address unless one with the same bytes was taken. *)
Definition take_step (h : heap) (taken : list ptr) (ip : ptr) : list ptr :=
  if bool_decide (h ip ∈ map h taken) then taken else (taken ++ [ip])%list.

Definition firstAppearances (h : heap) (ips : list ptr) : list ptr :=
  fold_left (take_step h) ips [].

(** [w'] differs from [w] in the log at most. *)
Definition logs_only (w w' : World) : Prop :=
  w_heap w' = w_heap w /\ w_trace w' = w_trace w /\ w_env w' = w_env w.

(** The outside, taken from [e] through the calls [tr], each answered by
    the handler, ends in [e']. *)
Inductive replay (h : heap) : Env -> list event -> Env -> Prop :=
| replay_nil e : replay h e [] e
| replay_cons e c tr e' :
    replay h (snd (handle c e h)) tr e' ->
    replay h e (Ev c (fst (handle c e h)) :: tr) e'.

(** From [w] to [w'] the calls [tr] were made, and nothing else happened
    to the addresses or to the outside. *)
Definition effects (w : World) (tr : list event) (w' : World) : Prop :=
  w_heap w' = w_heap w /\ w_trace w' = (w_trace w ++ tr)%list
  /\ replay (w_heap w) (w_env w) tr (w_env w').

(** A computation all of whose calls satisfy [P]. *)
Definition only (P : call -> Prop) {A} (m : M A) : Prop :=
  forall w, exists tr,
    effects w tr (snd (m w)) /\ Forall (fun ev => P (call_of ev)) tr.

(** Calls that change no file of the workspace. *)
Definition harmless (c : call) : Prop := is_mutation c = false.
Definition quiet_events (tr : list event) : Prop :=
  Forall (fun ev => harmless (call_of ev)) tr.

(** Both gates of [PrepareFromInputFile] are behind: from [w] the operator
    approved the clean-up, the list was read, deduplicated and filtered to
    [addrs], and either enough addresses remain or the operator approved
    going on with too few; [wg] is the world at that point. *)
Definition gates_passed (inputFilePath fileType : string) (conf : Configuration)
    (w : World) (addrs : list ptr) (wg : World) : Prop :=
  exists w1 ips w2 uniq w3 w4,
    confirmCleanUpExisting inputFilePath conf w = (Ok None, w1)
    /\ getIPsFromFile inputFilePath fileType w1 = (Ok (ips, None), w2)
    /\ removeDuplicateIPs ips conf w2 = (Ok uniq, w3)
    /\ filterOutHighEntropyIPs uniq conf w3 = (Ok addrs, w4)
    /\ (if len addrs <? InputMinAddresses conf
        then confirmTooFew (len addrs) conf w4 = (Ok None, wg)
        else wg = w4).

(** The calls on the buffered writer that carry data. *)
Definition is_data_write (c : call) : bool :=
  match c with
  | WriteString _ _ | Write _ _ => true
  | _ => false
  end.

End Notions.

(** ** A simulated outside
    One concrete set of collaborators, on which the functions run: an
    operator who answers the prompts from a list, an input file, a workspace
    of regular files, a state file, and an output file behind the writer.
    Each step that can fail has its error, if any, fixed in advance. *)
Module Sim.

Record env := mkEnv {
  answers : list bool;            (** the operator's answers, in order *)
  input : list ptr * option error;      (** what reading the input file gives *)
  workspace : list string;        (** the regular files under the base directory *)
  phase : string;                 (** the content of the state file *)
  reset_error : option error;
  save_error : option error;
  write_error : option error;
  state_error : option error;
  clean_pings : list ptr * option error;
  open_error : option error;
  writer_error : option error;
  output : list Byte.byte;        (** the bytes appended to the output file *)
  clock : Z
}.

Definition with_answers (e : env) (a : list bool) : env :=
  mkEnv a (input e) (workspace e) (phase e) (reset_error e) (save_error e)
    (write_error e) (state_error e) (clean_pings e) (open_error e)
    (writer_error e) (output e) (clock e).
Definition with_workspace (e : env) (fs : list string) : env :=
  mkEnv (answers e) (input e) fs (phase e) (reset_error e) (save_error e)
    (write_error e) (state_error e) (clean_pings e) (open_error e)
    (writer_error e) (output e) (clock e).
Definition with_phase (e : env) (p : string) : env :=
  mkEnv (answers e) (input e) (workspace e) p (reset_error e) (save_error e)
    (write_error e) (state_error e) (clean_pings e) (open_error e)
    (writer_error e) (output e) (clock e).
Definition with_output (e : env) (o : list Byte.byte) : env :=
  mkEnv (answers e) (input e) (workspace e) (phase e) (reset_error e)
    (save_error e) (write_error e) (state_error e) (clean_pings e)
    (open_error e) (writer_error e) o (clock e).

(** A stand-in score: the value of the address's last byte, as a float
    (the mantissa is not normalised; the comparisons below are between
    such values, zero and infinity only). *)
Definition score (ip : IP) (bits : Z) : float64 :=
  match Byte.to_N (List.last ip Byte.x00) with
  | N0 => S754_zero false
  | Npos p => S754_finite false p 0
  end.

Definition hexdigit (n : N) : ascii :=
  List.nth (N.to_nat n) (list_ascii_of_string "0123456789abcdef") "?"%char.

(** A stand-in for [net.IP.String]: two hex digits per byte. *)
Fixpoint hex (ip : IP) : string :=
  match ip with
  | [] => ""
  | b :: rest =>
      String (hexdigit (Byte.to_N b / 16)) (String (hexdigit (Byte.to_N b mod 16)) (hex rest))
  end.

#[global] Instance ext : Externals := {|
  Env := env;
  State := string;
  NETWORK_GROUP := "NETWORK_GROUP";
  AddressModel := string;
  NewAddressModel := fun name => name;
  Name := fun m => m;
  File := Z;
  Time := Z;
  Duration := Z;
  GetEntropyOfBitsFromRight := score;
  IPString := hex;
  GetStateFilePath := fun conf => BaseOutputDirectory conf ++ "/state";
  GetPingResultDirPath := fun conf => BaseOutputDirectory conf ++ "/ping";
  GetGeneratedModelDirPath := fun conf => BaseOutputDirectory conf ++ "/model";
  GetCleanPingDirPath := fun conf => BaseOutputDirectory conf ++ "/clean";
  GetOutputFilePath := fun conf => BaseOutputDirectory conf ++ "/out"
|}.

Definition answer (c : call) (e : env) (h : heap) : resp c * env :=
  match c as c0 return resp c0 * env with
  | PromptForApproval _ errMsg =>
      match answers e with
      | true :: rest => (None, with_answers e rest)
      | _ :: rest => (Some (mkError errMsg), with_answers e rest)
      | [] => (Some (mkError errMsg), e)
      end
  | ReadIPsFromBinaryFile _ | ReadIPsFromHexFile _ => (input e, e)
  | GetTimedFilePath dir => (dir ++ "/" ++ itoa (clock e), e)
  | WriteIPsToHexFile path _ =>
      match write_error e with
      | Some err => (Some err, e)
      | None => (None, with_workspace e (workspace e ++ [path]))
      end
  | SetStateFile _ st =>
      match state_error e with
      | Some err => (Some err, e)
      | None => (None, with_phase e st)
      end
  | DeleteAllFilesInDirectory _ =>
      match reset_error e with
      | Some err => (0, Some err, with_workspace e (List.tl (workspace e)))
      | None => (len (workspace e), None, with_workspace e [])
      end
  | Save _ path =>
      match save_error e with
      | Some err => (Some err, e)
      | None => (None, with_workspace e (workspace e ++ [path]))
      end
  | GetCleanPingResults _ => (clean_pings e, e)
  | OpenFile _ _ _ => (3, open_error e, e)
  | WriteString _ s =>
      match writer_error e with
      | Some err => (0, Some err, e)
      | None => (Z.of_nat (String.length s), None,
                 with_output e (output e ++ list_byte_of_string s))
      end
  | Write _ b =>
      match writer_error e with
      | Some err => (0, Some err, e)
      | None => (len b, None, with_output e (output e ++ b))
      end
  | Flush _ => (writer_error e, e)
  | Close _ => (None, e)
  | Now => (clock e, e)
  | Since t => (clock e - t, e)
  | Update _ => (tt, e)
  end.

#[global] Instance handler : Handler := answer.

(** Three addresses; the first and the third hold the same bytes. *)
Definition addrs : heap := fun p =>
  match p with
  | 1%N => [Byte.x20; Byte.x01; Byte.x00]
  | 2%N => [Byte.x20; Byte.x01; Byte.x07]
  | 3%N => [Byte.x20; Byte.x01; Byte.x00]
  | _ => [Byte.xff; Byte.xff]
  end.

(** The outside of a run: the operator's answers and the errors, if any,
    of the reset, of the address write and of the buffered writer. *)
Definition outside_with (ans : list bool)
    (reset write writer : option error) : env := {|
  answers := ans;
  input := ([1; 2; 3; 2]%N, None);
  workspace := ["out/model/old"; "out/ping/old"];
  phase := "GENERATE";
  reset_error := reset; save_error := None;
  write_error := write; state_error := None;
  clean_pings := ([1; 2]%N, None);
  open_error := None; writer_error := writer;
  output := [];
  clock := 7
|}.

(** Everything approved, nothing fails. *)
Definition outside : env := outside_with [true; true] None None None.
(** The operator approves the clean-up and declines to go on with too few. *)
Definition declining : env := outside_with [true; false] None None None.
(** The reset fails. *)
Definition reset_fails : env :=
  outside_with [true; true] (Some (mkError "permission denied")) None None.
(** Writing the surviving addresses fails. *)
Definition write_fails : env :=
  outside_with [true; true] None (Some (mkError "disk full")) None.
(** Every write through the buffered writer, and its flush, fails. *)
Definition writer_fails : env :=
  outside_with [] None None (Some (mkError "disk full")).

Definition world (e : env) : World := mkWorld addrs [] [] e.

Definition conf_with (freq : Z) (threshold : float64) (type : string)
    : Configuration := {|
  InputMinAddresses := 2;
  InputEmitFreq := freq;
  InputEntropyThreshold := threshold;
  InputEntropyBitLength := 64;
  BaseOutputDirectory := "out";
  OutputFileType := type
|}.

Definition conf : Configuration := conf_with 2 (S754_finite false 5 0) "text".
Definition conf_neg : Configuration := conf_with (-1) (S754_finite false 5 0) "text".
Definition conf_bin : Configuration := conf_with 2 (S754_finite false 5 0) "bin".
Definition conf_csv : Configuration := conf_with 2 (S754_finite false 5 0) "csv".

End Sim.

(** ** Package [fs] (the second part of [common/input/input.go])
    The file utilities that list a directory, archive files and count
    lines: their calls into [os], [io/ioutil], [io] and [compress/zlib]
    are answered by a handler of their own and recorded in a trace, as
    above; none of them can panic, so a computation is a plain state
    transformer. *)
Module Fs.

(** An [os.FileInfo], by the three methods the package calls:
    [Name()], [Mode().IsRegular()] and [ModTime().Unix()]. *)
Record FileInfo := mkFileInfo {
  Name : string;
  IsRegular : bool;
  Unix : Z
}.

(** The error a [Read] returns: nil, [io.EOF], or another error. *)
Inductive readerr :=
| RNil
| REOF
| RErr (e : error).

(** What [os] and [compress/zlib] declare. *)
Class Types := {
  Env : Type;                        (** the file system *)
  File : Type;                       (** [*os.File] *)
  Writer : Type;                     (** [*zlib.Writer] *)
  NewWriter : File -> Writer         (** [zlib.NewWriter], which writes nothing yet *)
}.

Section Calls.
Context `{T : Types}.

(** An operand of [log.Printf]. *)
Inductive logarg :=
| LStr (s : string)
| LInt (z : Z)
| LErr (e : error)
| LStrs (l : list string)
| LFile (f : File).

Record logline := LogLine { l_format : string; l_args : list logarg }.

Inductive call :=
| ReadDir (dirname : string)
| Create (name : string)
| Open (name : string)
| Close (f : File)
| CloseWriter (z : Writer)
| Copy (dst : Writer) (src : File)
| Read (f : File) (size : Z).

Definition resp (c : call) : Type :=
  match c with
  | ReadDir _ => (list FileInfo * option error)%type
  | Create _ | Open _ => (File * option error)%type
  | Close _ | CloseWriter _ => option error
  | Copy _ _ => (Z * option error)%type
  | Read _ _ => (list Byte.byte * readerr)%type
  end.

Inductive event := Ev (c : call) (r : resp c).

Definition call_of (e : event) : call := let 'Ev c _ := e in c.

Record World := mkWorld {
  w_log : list logline;
  w_trace : list event;
  w_env : Env
}.

End Calls.

Class Handler `{T : Types} :=
  handle : forall c : call, Env -> resp c * Env.

Section Monad.
Context `{T : Types} {Hd : Handler}.

Definition M (A : Type) : Type := World -> A * World.

Definition ret {A} (a : A) : M A := fun w => (a, w).

Definition bind {A B} (m : M A) (k : A -> M B) : M B :=
  fun w => let (a, w') := m w in k a w'.

Definition invoke (c : call) : M (resp c) :=
  fun w => let (r, e) := handle c (w_env w) in
           (r, mkWorld (w_log w) (w_trace w ++ [Ev c r]) e).

Definition Printf (format : string) (args : list logarg) : M unit :=
  fun w => (tt, mkWorld (w_log w ++ [LogLine format args]) (w_trace w) (w_env w)).

End Monad.

Notation "'let*' x := m 'in' k" := (bind m (fun x => k))
  (at level 10, x pattern, m at level 100, k at level 200).
Notation "m >> k" := (bind m (fun _ => k))
  (at level 62, right associativity).

Section Functions.
Context `{T : Types} {Hd : Handler}.

(** The loop of [GetMostRecentFileFromDirectory] over the entries. *)
Fixpoint mostRecentLoop (files : list FileInfo) (newestFile : string)
    (newestTime : Z) : string :=
  match files with
  | [] => newestFile
  | fi :: rest =>
      if IsRegular fi then
        let curTime := Unix fi in
        if curTime >? newestTime
        then mostRecentLoop rest (Name fi) curTime
        else mostRecentLoop rest newestFile newestTime
      else mostRecentLoop rest newestFile newestTime
  end.

Definition GetMostRecentFileFromDirectory (dirPath : string)
    : M (string * option error) :=
  let* r := invoke (ReadDir dirPath) in
  let '(files, err) := r in
  match err with
  | Some e =>
      Printf "Error thrown when reading files from directory '%s': %s"
        [LStr dirPath; LErr e] >>
      ret ("", Some e)
  | None => ret (mostRecentLoop files "" 0, None)
  end.

(** The second loop of [GetNonMostRecentFilesFromDirectory]. *)
Fixpoint otherNamesLoop (files : list FileInfo) (recentFile : string)
    (toReturn : list string) : list string :=
  match files with
  | [] => toReturn
  | fi :: rest =>
      let name := Name fi in
      if negb (String.eqb name recentFile)
      then otherNamesLoop rest recentFile (toReturn ++ [name])
      else otherNamesLoop rest recentFile toReturn
  end.

Definition GetNonMostRecentFilesFromDirectory (dirPath : string)
    : M (list string * option error) :=
  let toReturn : list string := [] in
  let* r := GetMostRecentFileFromDirectory dirPath in
  let '(recentFile, err) := r in
  if (match err with Some _ => true | None => false end
      || String.eqb recentFile "")%bool
  then ret (toReturn, err)
  else
    Printf "Most recent file in directory '%s' is '%s'."
      [LStr dirPath; LStr recentFile] >>
    let* r := invoke (ReadDir dirPath) in
    let '(files, err) := r in
    match err with
    | Some e =>
        Printf "Error thrown when trying to read files from directory '%s': '%s"
          [LStr dirPath; LErr e] >>
        ret (toReturn, Some e)
    | None =>
        let toReturn := otherNamesLoop files recentFile toReturn in
        Printf "Found %d files older than the most recent '%s' in directory '%s'."
          [LInt (len toReturn); LStr recentFile; LStr dirPath] >>
        ret (toReturn, None)
    end.

(** The loop of [ZipFiles] over the input paths; it gives the error the
    function returns from inside the loop, or nil at the end of the list. *)
Fixpoint zipLoop (inputPaths : list string) (outputPath : string)
    (outZipFile : Writer) : M (option error) :=
  match inputPaths with
  | [] => ret None
  | inputPath :: rest =>
      Printf "Now processing file at '%s'." [LStr inputPath] >>
      let* r := invoke (Open inputPath) in
      let '(inputFile, err) := r in
      match err with
      | Some e =>
          Printf "Error thrown when opening file at path '%s': %e"
            [LStr inputPath; LErr e] >>
          ret (Some e)
      | None =>
          let* r := invoke (Copy outZipFile inputFile) in
          let '(_, err) := r in
          match err with
          | Some e =>
              Printf "Error thrown when trying to add file at '%s' to zip file at '%s': %e"
                [LStr inputPath; LStr outputPath; LErr e] >>
              invoke (Close inputFile) >>
              ret (Some e)
          | None =>
              Printf "File at path '%s' successfully added to zip file at '%s'."
                [LStr inputPath; LStr outputPath] >>
              invoke (Close inputFile) >>
              zipLoop rest outputPath outZipFile
          end
      end
  end.

Definition ZipFiles (inputPaths : list string) (outputPath : string)
    : M (option error) :=
  Printf "Zipping up %d files (at %s) into output path of '%s'."
    [LInt (len inputPaths); LStrs inputPaths; LStr outputPath] >>
  let* r := invoke (Create outputPath) in
  let '(outFile, err) := r in
  match err with
  | Some e =>
      Printf "Error thrown when trying to create file at path '%s': %e"
        [LFile outFile; LErr e] >>
      ret (Some e)
  | None =>
      (* defer outFile.Close() *)
      let outZipFile := NewWriter outFile in
      (* defer outZipFile.Close() *)
      let* res := zipLoop inputPaths outputPath outZipFile in
      match res with
      | None =>
          Printf "Successfully added %d files (at %s) into output zip file at path '%s'."
            [LInt (len inputPaths); LStrs inputPaths; LStr outputPath]
      | Some _ => ret tt
      end >>
      (* the deferred calls, last deferred first *)
      invoke (CloseWriter outZipFile) >>
      invoke (Close outFile) >>
      ret res
  end.

(** A Go [int], 64 bits wide. *)
Definition wrap64 (z : Z) : Z := (z + 2 ^ 63) mod 2 ^ 64 - 2 ^ 63.

(** [bytes.Count(b, []byte{'\n'})] *)
Definition countNewlines (b : list Byte.byte) : Z :=
  len (List.filter (Byte.eqb Byte.x0a) b).

Definition bufSize : Z := 32 * 1024.

(** The [for { ... }] of [CountLinesInFile]; it ends when a [Read] gives
    an error, and [fuel] bounds the rounds the model follows it for:
    [None] when they are used up.  [file.Read(buf)] gives the bytes it
    put in [buf], [buf[:c]]. *)
Fixpoint countLoop (fuel : nat) (file : File) (count : Z)
    : M (option (Z * option error)) :=
  match fuel with
  | O => ret None
  | S fuel' =>
      let* r := invoke (Read file bufSize) in
      let '(read, err) := r in
      let count := wrap64 (count + countNewlines read) in
      match err with
      | REOF => ret (Some (count, None))
      | RErr e => ret (Some (count, Some e))
      | RNil => countLoop fuel' file count
      end
  end.

Definition CountLinesInFile (fuel : nat) (filePath : string)
    : M (option (Z * option error)) :=
  let* r := invoke (Open filePath) in
  let '(file, err) := r in
  match err with
  | Some e => ret (Some (-1, Some e))
  | None => countLoop fuel file 0
  end.

End Functions.

(** *** Notions the properties of [fs] are stated with *)
Section Notions.
Context `{T : Types} {Hd : Handler}.

Inductive replay : Env -> list event -> Env -> Prop :=
| replay_done e : replay e [] e
| replay_call e c tr e' :
    replay (snd (handle c e)) tr e' ->
    replay e (Ev c (fst (handle c e)) :: tr) e'.

(** From [w] to [w'] the calls [tr] were made, each answered by the
    handler. *)
Definition effects (w : World) (tr : list event) (w' : World) : Prop :=
  w_trace w' = (w_trace w ++ tr)%list /\ replay (w_env w) tr (w_env w').

(** The input files a stretch of [ZipFiles] opened, and the ones it
    closed, in order. *)
Definition opened (tr : list event) : list File :=
  flat_map (fun ev => match ev with
                      | Ev (Open _) (f, None) => [f]
                      | _ => []
                      end) tr.

Definition closed (tr : list event) : list File :=
  flat_map (fun ev => match ev with
                      | Ev (Close f) _ => [f]
                      | _ => []
                      end) tr.

(** The calls of [ZipFiles] on its input files. *)
Definition input_call (c : call) : Prop :=
  match c with
  | Open _ | Copy _ _ | Close _ => True
  | _ => False
  end.

(** A [Read]. *)
Definition read_call (c : call) : Prop :=
  match c with
  | Read _ _ => True
  | _ => False
  end.

(** An open, a copy or a creation that gave no error, or any other call. *)
Definition unfailed (ev : event) : Prop :=
  match ev with
  | Ev (Create _) (_, Some _) | Ev (Open _) (_, Some _)
  | Ev (Copy _ _) (_, Some _) => False
  | _ => True
  end.

(** How a stretch of [ZipFiles] that meets the error [e] ends: with the
    open that failed with [e], or with an open, the copy that failed with
    [e], and the close of that input file. *)
Definition stops_with (z : Writer) (e : error) (stop : list event) : Prop :=
  (exists p f, stop = [Ev (Open p) (f, Some e)])
  \/ (exists p f n r,
        stop = [Ev (Open p) (f, None); Ev (Copy z f) (n, Some e); Ev (Close f) r]).

(** The paths a stretch tried to open. *)
Definition tried (tr : list event) : list string :=
  flat_map (fun ev => match call_of ev with
                      | Open p => [p]
                      | _ => []
                      end) tr.

(** What a file gives to successive [Read]s: the chunks read with no
    error, then the bytes that come with the error that ends it, [None]
    being [io.EOF]. *)
Inductive drains (f : File) : Env -> list (list Byte.byte) -> list Byte.byte
    -> option error -> Env -> Prop :=
| drains_eof e b e' :
    handle (Read f bufSize) e = ((b, REOF), e') -> drains f e [] b None e'
| drains_err e b err e' :
    handle (Read f bufSize) e = ((b, RErr err), e') -> drains f e [] b (Some err) e'
| drains_more e b e1 chunks last err e' :
    handle (Read f bufSize) e = ((b, RNil), e1) ->
    drains f e1 chunks last err e' ->
    drains f e (b :: chunks) last err e'.

End Notions.

End Fs.

(** A simulated file system for [fs]: a directory listing, paths that
    cannot be opened, and the chunks the next [Read]s give. *)
Module FsSim.

Record env := mkEnv {
  entries : list Fs.FileInfo * option error;
  missing : list string;
  pending : list (list Byte.byte);
  next_fd : Z
}.

#[global] Instance types : Fs.Types := {|
  Fs.Env := env;
  Fs.File := Z;
  Fs.Writer := Z;
  Fs.NewWriter := fun f => f
|}.

Definition fresh (e : env) : env :=
  mkEnv (entries e) (missing e) (pending e) (next_fd e + 1).

Definition answer (c : Fs.call) (e : env) : Fs.resp c * env :=
  match c as c0 return Fs.resp c0 * env with
  | Fs.ReadDir _ => (entries e, e)
  | Fs.Create _ => (next_fd e, None, fresh e)
  | Fs.Open p =>
      if bool_decide (p ∈ missing e)
      then (0, Some (mkError "no such file"), e)
      else (next_fd e, None, fresh e)
  | Fs.Close _ | Fs.CloseWriter _ => (None, e)
  | Fs.Copy _ _ => (0, None, e)
  | Fs.Read _ _ =>
      match pending e with
      | [] => ([], Fs.REOF, e)
      | [b] => (b, Fs.REOF, mkEnv (entries e) (missing e) [] (next_fd e))
      | b :: rest => (b, Fs.RNil, mkEnv (entries e) (missing e) rest (next_fd e))
      end
  end.

#[global] Instance handler : Fs.Handler := answer.

(** A directory with a subdirectory, two dated files and one dated at the
    epoch. *)
Definition listing : list Fs.FileInfo :=
  [Fs.mkFileInfo "a.txt" true 100; Fs.mkFileInfo "dir" false 900;
   Fs.mkFileInfo "b.txt" true 300; Fs.mkFileInfo "c.txt" true 0].

Definition disk : env := {|
  entries := (listing, None);
  missing := ["gone.txt"];
  pending := [[Byte.x61; Byte.x0a; Byte.x62]; [Byte.x0a; Byte.x0a]; [Byte.x63]];
  next_fd := 3
|}.

(** A directory whose only regular file is dated at the epoch. *)
Definition stale : env := {|
  entries := ([Fs.mkFileInfo "dir" false 900; Fs.mkFileInfo "c.txt" true 0], None);
  missing := [];
  pending := [];
  next_fd := 3
|}.

Definition world (e : env) : Fs.World := Fs.mkWorld [] [] e.

End FsSim.

(** More outsides for the intake pipeline. *)
Module MoreSim.

(** The operator declines the clean-up. *)
Definition declines_cleanup : Sim.env :=
  Sim.outside_with [false] None None None.

(** Reading the input file fails. *)
Definition read_fails : Sim.env :=
  Sim.mkEnv [true; true] ([], Some (mkError "malformed line")) ["out/model/old"]
    "GENERATE" None None None None ([], None) None None [] 7.

(** Saving the blank model fails. *)
Definition save_fails : Sim.env :=
  Sim.mkEnv [true; true] ([1; 2; 3; 2]%N, None) ["out/model/old"; "out/ping/old"]
    "GENERATE" None (Some (mkError "disk full")) None None ([], None) None None [] 7.

(** A log interval of zero. *)
Definition conf_zero : Configuration :=
  Sim.conf_with 0 (S754_finite false 5 0) "text".

End MoreSim.

(** The file system of [FsSim] with a full disk: every copy fails. *)
Module FsFullSim.

Definition answer (c : Fs.call) (e : FsSim.env) : Fs.resp c * FsSim.env :=
  match c as c0 return Fs.resp c0 * FsSim.env with
  | Fs.Copy _ _ => (0, Some (mkError "no space left on device"), e)
  | c0 => FsSim.answer c0 e
  end.

Definition handler : @Fs.Handler FsSim.types := answer.

End FsFullSim.

(** Collaborators whose entropy score is divided by the bit length: with
    a bit length of zero the score is 0/0, not a number. *)
Module NaNSim.

Definition score (ip : IP) (bits : Z) : float64 :=
  if bits =? 0 then S754_nan else Sim.score ip bits.

Definition ext : Externals := {|
  Env := unit;
  State := string;
  NETWORK_GROUP := "NETWORK_GROUP";
  AddressModel := string;
  NewAddressModel := fun name => name;
  Name := fun m => m;
  File := Z;
  Time := Z;
  Duration := Z;
  GetEntropyOfBitsFromRight := score;
  IPString := Sim.hex;
  GetStateFilePath := fun conf => BaseOutputDirectory conf ++ "/state";
  GetPingResultDirPath := fun conf => BaseOutputDirectory conf ++ "/ping";
  GetGeneratedModelDirPath := fun conf => BaseOutputDirectory conf ++ "/model";
  GetCleanPingDirPath := fun conf => BaseOutputDirectory conf ++ "/clean";
  GetOutputFilePath := fun conf => BaseOutputDirectory conf ++ "/out"
|}.

(** The threshold +infinity, over zero bits. *)
Definition conf : Configuration := {|
  InputMinAddresses := 2;
  InputEmitFreq := 2;
  InputEntropyThreshold := posInf;
  InputEntropyBitLength := 0;
  BaseOutputDirectory := "out";
  OutputFileType := "text"
|}.

Definition world : @World ext := @mkWorld ext Sim.addrs [] [] tt.

End NaNSim.

(** ** Facts *)
Section Facts.
Context `{Ext : Externals} {Hd : Handler}.

Lemma replay_app h e1 tr1 e2 tr2 e3 :
  replay h e1 tr1 e2 -> replay h e2 tr2 e3 -> replay h e1 (tr1 ++ tr2) e3.
Proof. induction 1; simpl; [done|]. intros. constructor. auto. Qed.

Lemma effects_refl w : effects w [] w.
Proof. repeat split; [by rewrite app_nil_r | constructor]. Qed.

Lemma effects_trans w1 tr1 w2 tr2 w3 :
  effects w1 tr1 w2 -> effects w2 tr2 w3 -> effects w1 (tr1 ++ tr2) w3.
Proof.
  intros (Hh1 & Ht1 & Hr1) (Hh2 & Ht2 & Hr2). repeat split.
  - congruence.
  - by rewrite Ht2, Ht1, app_assoc.
  - rewrite Hh1 in Hr2. eapply replay_app; eauto.
Qed.

Lemma effects_invoke c w : effects w [Ev c (fst (handle c (w_env w) (w_heap w)))] (snd (invoke c w)).
Proof.
  unfold invoke. destruct (handle c (w_env w) (w_heap w)) as [r e] eqn:E. simpl.
  repeat split. replace r with (fst (handle c (w_env w) (w_heap w))) by by rewrite E.
  replace e with (snd (handle c (w_env w) (w_heap w))) by by rewrite E.
  constructor. constructor.
Qed.

Lemma only_ret P {A} (a : A) : only P (ret a).
Proof. intros w. exists []. split; [apply effects_refl | constructor]. Qed.

Lemma only_panic P {A} msg : only P (@panic _ A msg).
Proof. intros w. exists []. split; [apply effects_refl | constructor]. Qed.

Lemma only_Printf P f a : only P (Printf f a).
Proof.
  intros w. exists []. split; [| constructor].
  repeat split; simpl; [by rewrite app_nil_r | constructor].
Qed.

Lemma only_deref P p : only P (deref p).
Proof. intros w. exists []. split; [apply effects_refl | constructor]. Qed.

Lemma only_invoke (P : call -> Prop) c : P c -> only P (invoke c).
Proof.
  intros Hc w. eexists. split; [apply effects_invoke|]. by repeat constructor.
Qed.

Lemma only_bind P {A B} (m : M A) (k : A -> M B) :
  only P m -> (forall a, only P (k a)) -> only P (bind m k).
Proof.
  intros Hm Hk w. unfold bind. destruct (Hm w) as (tr1 & E1 & Q1).
  destruct (m w) as [[a|msg] w1]; simpl in *.
  - destruct (Hk a w1) as (tr2 & E2 & Q2). exists (tr1 ++ tr2)%list.
    split; [eapply effects_trans; eauto | by apply Forall_app].
  - eauto.
Qed.

Lemma only_go_rem P a b : only P (go_rem a b).
Proof. unfold go_rem. destruct (b =? 0); [apply only_panic | apply only_ret]. Qed.

Lemma only_run P {A} (m : M A) w o w' :
  only P m -> m w = (o, w') ->
  exists tr, effects w tr w' /\ Forall (fun ev => P (call_of ev)) tr.
Proof. intros Hm E. destruct (Hm w) as (tr & ? & ?). rewrite E in *. eauto. Qed.

Ltac only_step :=
  first [ apply only_bind; [| intros ?]
        | apply only_ret | apply only_panic | apply only_Printf
        | apply only_deref | apply only_go_rem
        | match goal with
          | |- only ?P (invoke ?c) =>
              apply (only_invoke P c); first [reflexivity | exact I]
          end
        | match goal with |- only _ (match ?x with _ => _ end) => destruct x end
        | match goal with |- only _ (if ?x then _ else _) => destruct x end
        | match goal with |- only _ (let (_, _) := ?x in _) => destruct x end ].

Lemma only_filterLoop P conf total rest :
  forall i acc, only P (filterLoop conf total i rest acc).
Proof. induction rest; intros; simpl; repeat only_step; auto. Qed.

Lemma only_uniqueLoop P total f rest :
  forall i seen acc, only P (uniqueLoop total f i rest seen acc).
Proof. induction rest; intros; simpl; repeat only_step; auto. Qed.

Lemma only_filterOutHighEntropyIPs P ips conf :
  only P (filterOutHighEntropyIPs ips conf).
Proof. unfold filterOutHighEntropyIPs. repeat only_step. apply only_filterLoop. Qed.

Lemma only_removeDuplicateIPs P ips conf : only P (removeDuplicateIPs ips conf).
Proof. unfold removeDuplicateIPs, GetUniqueIPs. repeat only_step. apply only_uniqueLoop. Qed.

Lemma quiet_confirmCleanUpExisting p conf : only harmless (confirmCleanUpExisting p conf).
Proof. unfold confirmCleanUpExisting. repeat only_step. Qed.

Lemma quiet_confirmTooFew n conf : only harmless (confirmTooFew n conf).
Proof. unfold confirmTooFew. repeat only_step. Qed.

Lemma quiet_getIPsFromFile p ft : only harmless (getIPsFromFile p ft).
Proof. unfold getIPsFromFile. repeat only_step. Qed.

Lemma traced_cleanUpWorkingDirectories conf :
  only (fun _ => True) (cleanUpWorkingDirectories conf).
Proof. unfold cleanUpWorkingDirectories. repeat only_step. Qed.

Lemma traced_createBlankModel p conf : only (fun _ => True) (createBlankModel p conf).
Proof. unfold createBlankModel. repeat only_step. Qed.

Lemma traced_writeNewAddresses a conf : only (fun _ => True) (writeNewAddresses a conf).
Proof. unfold writeNewAddresses. repeat only_step. Qed.

Lemma traced_updateState conf : only (fun _ => True) (updateState conf).
Proof. unfold updateState. repeat only_step. Qed.

(** *** The two list passes *)

Lemma logs_only_refl w : logs_only w w.
Proof. by repeat split. Qed.

Lemma logs_only_trans w1 w2 w3 :
  logs_only w1 w2 -> logs_only w2 w3 -> logs_only w1 w3.
Proof. intros (?&?&?) (?&?&?). repeat split; congruence. Qed.

Lemma filterLoop_returns conf total rest :
  InputEmitFreq conf <> 0 ->
  forall i acc w, exists w',
    filterLoop conf total i rest acc w
      = (Ok (acc ++ List.filter (lowEntropy conf (w_heap w)) rest)%list, w')
    /\ logs_only w w'.
Proof.
  intros Hf. induction rest as [|ip rest IH]; intros i acc w; simpl.
  - exists w. rewrite app_nil_r. split; [reflexivity | apply logs_only_refl].
  - unfold bind, go_rem. destruct (Z.eqb_spec (InputEmitFreq conf) 0) as [|_]; [done|].
    cbn [ret].
    destruct (Z.rem i (InputEmitFreq conf) =? 0); cbn [Printf ret deref];
    unfold lowEntropy at 1; cbn [w_heap];
    destruct (SFltb _ _) eqn:Hlt.
    all: match goal with |- context [filterLoop _ _ ?j _ ?a ?w0] =>
           destruct (IH j a w0) as (w' & -> & Hw) end.
    all: exists w'; split; [ by rewrite <- ?app_assoc | ].
    all: eapply logs_only_trans; [| exact Hw]; by repeat split.
Qed.

Lemma filterOutHighEntropyIPs_returns conf ips w :
  InputEmitFreq conf <> 0 \/ ips = [] ->
  exists w', filterOutHighEntropyIPs ips conf w
             = (Ok (List.filter (lowEntropy conf (w_heap w)) ips), w')
            /\ logs_only w w'.
Proof.
  intros [Hf | ->]; unfold filterOutHighEntropyIPs, bind; cbn [Printf].
  - match goal with |- context [filterLoop _ _ ?j _ ?a ?w0] =>
      destruct (filterLoop_returns conf (len ips) ips Hf j a w0) as (w' & -> & Hw) end.
    cbn [ret app]. eexists; split; [reflexivity|].
    eapply logs_only_trans; [| eapply logs_only_trans; [exact Hw |]]; by repeat split.
  - simpl. eexists; split; [reflexivity|]. by repeat split.
Qed.

Lemma filterOutHighEntropyIPs_panics conf ips w :
  InputEmitFreq conf = 0 -> ips <> [] ->
  exists w', filterOutHighEntropyIPs ips conf w
             = (Panic "runtime error: integer divide by zero", w')
            /\ logs_only w w'.
Proof.
  intros Hf Hne. destruct ips as [|ip rest]; [done|].
  unfold filterOutHighEntropyIPs, bind; cbn [Printf filterLoop].
  unfold bind, go_rem. rewrite Hf. simpl.
  eexists; split; [reflexivity|]. by repeat split.
Qed.

Lemma uniqueLoop_returns total f rest :
  forall i (checkMap : gmap IP bool) acc w,
    (forall v, checkMap !! v = None <-> v ∉ map (w_heap w) acc) ->
    exists w', uniqueLoop total f i rest checkMap acc w
               = (Ok (fold_left (take_step (w_heap w)) rest acc), w')
              /\ logs_only w w'.
Proof.
  induction rest as [|ip rest IH]; intros i seen acc w Hinv; simpl.
  - exists w. split; [reflexivity | apply logs_only_refl].
  - unfold bind.
    assert (Hgo : forall w0, logs_only w w0 ->
      exists w', (match seen !! w_heap w0 ip with
                  | Some _ => uniqueLoop total f (i + 1) rest seen acc
                  | None => uniqueLoop total f (i + 1) rest
                              (<[w_heap w0 ip := true]> seen) (acc ++ [ip])%list
                  end) w0
                 = (Ok (fold_left (take_step (w_heap w)) rest (take_step (w_heap w) acc ip)), w')
                /\ logs_only w w').
    { intros w0 Hw0. destruct Hw0 as (Hh & Ht & He). rewrite Hh.
      unfold take_step at 2.
      destruct (seen !! w_heap w ip) eqn:E.
      - rewrite bool_decide_true.
        2:{ destruct (decide (w_heap w ip ∈ map (w_heap w) acc)) as [|Hn]; [done|].
            apply Hinv in Hn. congruence. }
        destruct (IH (i + 1) seen acc w0) as (w' & Hrun & Hw').
        { intros v. rewrite Hh. apply Hinv. }
        rewrite Hh in Hrun. exists w'. split; [done|].
        eapply logs_only_trans; [| exact Hw']. by repeat split.
      - rewrite bool_decide_false by by apply Hinv.
        destruct (IH (i + 1) (<[w_heap w ip := true]> seen) (acc ++ [ip])%list w0)
          as (w' & Hrun & Hw').
        { intros v. rewrite Hh, map_app, elem_of_app. simpl.
          rewrite list_elem_of_singleton.
          destruct (decide (w_heap w ip = v)) as [<-|Hne].
          - rewrite lookup_insert_eq. split; [done | intros []; tauto].
          - rewrite lookup_insert_ne by done. rewrite Hinv. split; [| tauto].
            intros ? [|]; [tauto | congruence]. }
        rewrite Hh in Hrun. exists w'. split; [done|].
        eapply logs_only_trans; [| exact Hw']. by repeat split. }
    destruct (Z.rem i f =? 0); cbn [Printf ret deref]; apply Hgo; by repeat split.
Qed.

Lemma firstAppearances_snoc h pre ip :
  firstAppearances h (pre ++ [ip]) = take_step h (firstAppearances h pre) ip.
Proof. unfold firstAppearances. by rewrite fold_left_app. Qed.

Lemma firstAppearances_values h ips v :
  v ∈ map h (firstAppearances h ips) <-> v ∈ map h ips.
Proof.
  induction ips as [|ip pre IH] using rev_ind; [done|].
  rewrite firstAppearances_snoc. unfold take_step. rewrite (map_app h pre), elem_of_app.
  case_bool_decide as Hin.
  - rewrite IH. simpl. rewrite list_elem_of_singleton. split; [tauto|].
    intros [? | ->]; [done|]. by apply IH.
  - by rewrite map_app, elem_of_app, IH.
Qed.

Lemma firstAppearances_first h pre ip :
  firstAppearances h (pre ++ [ip])
  = (firstAppearances h pre ++ (if bool_decide (h ip ∈ map h pre) then [] else [ip]))%list.
Proof.
  rewrite firstAppearances_snoc. unfold take_step.
  rewrite (bool_decide_ext _ (h ip ∈ map h pre)) by apply firstAppearances_values.
  case_bool_decide; [by rewrite app_nil_r | done].
Qed.

Lemma firstAppearances_NoDup h ips : NoDup (map h (firstAppearances h ips)).
Proof.
  induction ips as [|ip pre IH] using rev_ind; [constructor|].
  rewrite firstAppearances_first. case_bool_decide as Hin.
  - by rewrite app_nil_r.
  - rewrite map_app. apply NoDup_app. split; [done|]. split; [| apply NoDup_singleton].
    intros v Hv Hv'. simpl in Hv'. apply list_elem_of_singleton in Hv' as ->.
    apply Hin. by apply firstAppearances_values.
Qed.

Lemma firstAppearances_sublist h ips : sublist (firstAppearances h ips) ips.
Proof.
  induction ips as [|ip pre IH] using rev_ind; [constructor|].
  rewrite firstAppearances_first. apply sublist_app; [done|].
  case_bool_decide; [apply sublist_nil_l | done].
Qed.

Lemma firstAppearances_fixed h ips :
  NoDup (map h ips) -> firstAppearances h ips = ips.
Proof.
  induction ips as [|ip pre IH] using rev_ind; [done|].
  rewrite map_app. intros (Hpre & Hx & _)%NoDup_app.
  rewrite firstAppearances_first, IH by done.
  rewrite bool_decide_false; [done|].
  intros Hin. apply (Hx _ Hin). simpl. by left.
Qed.

Lemma removeDuplicateIPs_returns conf ips w :
  exists w', removeDuplicateIPs ips conf w = (Ok (firstAppearances (w_heap w) ips), w')
             /\ logs_only w w'.
Proof.
  unfold removeDuplicateIPs, GetUniqueIPs, bind; cbn [Printf].
  match goal with |- context [uniqueLoop ?t ?f ?j _ ?m ?a ?w0] =>
    destruct (uniqueLoop_returns t f ips j m a w0) as (w' & -> & Hw) end.
  { intros v. simpl. rewrite lookup_empty. split; [intros _ | done]. apply not_elem_of_nil. }
  cbn [ret w_heap]. eexists; split; [reflexivity|].
  eapply logs_only_trans; [| eapply logs_only_trans; [exact Hw |]]; by repeat split.
Qed.

Lemma sublist_List_filter {A} (f : A -> bool) (l : list A) :
  sublist (List.filter f l) l.
Proof.
  induction l as [|x l IH]; simpl; [constructor|].
  destruct (f x); by constructor.
Qed.

Lemma List_filter_all {A} (f : A -> bool) (l : list A) :
  (forall x, In x l -> f x = true) -> List.filter f l = l.
Proof.
  induction l as [|x l IH]; simpl; intros H; [done|].
  rewrite H by by left. f_equal. apply IH. intros; apply H; by right.
Qed.


(** *** [filterOutHighEntropyIPs] *)

(** C3. Whenever the loop does not divide by zero (the log interval is not
    zero, or the list is empty), [filterOutHighEntropyIPs] returns the
    addresses of the input whose entropy score over the rightmost
    [InputEntropyBitLength] bits is strictly below the threshold - an
    address is in the output if and only if it is in the input and passes
    that test - and the address objects are as they were. *)
Theorem filterOutHighEntropyIPs_retains (conf : Configuration)
    (ips : list ptr) (w : World) :
  InputEmitFreq conf <> 0 \/ ips = [] ->
  exists out w',
    filterOutHighEntropyIPs ips conf w = (Ok out, w')
    /\ out = List.filter (lowEntropy conf (w_heap w)) ips
    /\ (forall ip, In ip out <->
          In ip ips /\
          SFltb (GetEntropyOfBitsFromRight (w_heap w ip) (InputEntropyBitLength conf))
                (InputEntropyThreshold conf) = true)
    /\ w_heap w' = w_heap w.
Proof.
  intros H. destruct (filterOutHighEntropyIPs_returns conf ips w H) as (w' & E & Hl).
  eexists _, w'. split; [exact E|]. split; [reflexivity|]. split.
  - intros ip. apply filter_In.
  - apply Hl.
Qed.


(** C9, as amended. [filterOutHighEntropyIPs] is total only when
    [InputEmitFreq] is not zero: on every list that is not empty it
    evaluates [i % InputEmitFreq], and with [InputEmitFreq] zero that is a
    panic, an integer division by zero, at the first index; so returning
    for every list needs [InputEmitFreq <> 0]. *)
Theorem filterOutHighEntropyIPs_total_needs_nonzero (conf : Configuration)
    (w : World) :
  (InputEmitFreq conf = 0 ->
   forall ips, ips <> [] ->
     fst (filterOutHighEntropyIPs ips conf w)
     = Panic "runtime error: integer divide by zero")
  /\ ((forall ips, exists out, fst (filterOutHighEntropyIPs ips conf w) = Ok out)
      -> InputEmitFreq conf <> 0).
Proof.
  split.
  - intros Hz ips Hne.
    destruct (filterOutHighEntropyIPs_panics conf ips w Hz Hne) as (w' & -> & _). done.
  - intros Htot Hz. destruct (Htot [0%N]) as [out Hout].
    destruct (filterOutHighEntropyIPs_panics conf [0%N] w Hz) as (w' & E & _); [done|].
    rewrite E in Hout. discriminate.
Qed.

(** *** [removeDuplicateIPs] *)

(** C5. [removeDuplicateIPs] returns, for every list, the addresses that
    are first with their byte value, in the order of the input: no byte
    value twice, every byte value of the input present, an address taken
    exactly when its bytes did not occur before it.  Running it on its
    output gives the output again; the output depends on the list and the
    bytes only, not on the log interval, the log or the outside; the empty
    list gives the empty list. *)
Theorem removeDuplicateIPs_first_appearances (conf : Configuration)
    (ips : list ptr) (w : World) :
  exists out w',
    removeDuplicateIPs ips conf w = (Ok out, w')
    /\ w_heap w' = w_heap w
    /\ out = firstAppearances (w_heap w) ips
    /\ NoDup (map (w_heap w) out)
    /\ (forall v, v ∈ map (w_heap w) out <-> v ∈ map (w_heap w) ips)
    /\ sublist out ips
    /\ (forall pre ip,
          firstAppearances (w_heap w) (pre ++ [ip])
          = (firstAppearances (w_heap w) pre
             ++ (if bool_decide (w_heap w ip ∈ map (w_heap w) pre)
                 then [] else [ip]))%list)
    /\ fst (removeDuplicateIPs out conf w') = Ok out
    /\ (forall conf2 w2, w_heap w2 = w_heap w ->
          fst (removeDuplicateIPs ips conf2 w2) = Ok out)
    /\ (ips = [] -> out = []).
Proof.
  destruct (removeDuplicateIPs_returns conf ips w) as (w' & E & Hl).
  eexists _, w'. split; [exact E|]. split; [apply Hl|]. split; [reflexivity|].
  split; [apply firstAppearances_NoDup|]. split.
  { intros v. apply firstAppearances_values. }
  split; [apply firstAppearances_sublist|]. split.
  { intros pre ip. apply firstAppearances_first. }
  split.
  { destruct (removeDuplicateIPs_returns conf (firstAppearances (w_heap w) ips) w')
      as (w'' & -> & _).
    destruct Hl as (-> & _). simpl. f_equal.
    apply firstAppearances_fixed, firstAppearances_NoDup. }
  split.
  { intros conf2 w2 Hh. destruct (removeDuplicateIPs_returns conf2 ips w2) as (w'' & -> & _).
    by rewrite Hh. }
  by intros ->.
Qed.

(** *** [PrepareFromInputFile] *)

Lemma quiet_events_no_mutation tr pre c r post :
  quiet_events tr -> tr = (pre ++ Ev c r :: post)%list -> is_mutation c = true -> False.
Proof.
  intros Hq -> Hc. apply Forall_app in Hq as [_ Hq]. apply Forall_cons in Hq as [Hq _].
  unfold harmless in Hq. simpl in Hq. congruence.
Qed.

Lemma mutation_after_quiet g m pre c r post :
  quiet_events g -> (g ++ m)%list = (pre ++ Ev c r :: post)%list ->
  is_mutation c = true -> exists k, pre = (g ++ k)%list.
Proof.
  revert pre. induction g as [|ev g IH]; intros pre Hq E Hc; [by exists pre|].
  apply Forall_cons in Hq as [Hev Hq]. destruct pre as [|ev' pre]; simpl in E.
  - injection E as -> _. unfold harmless in Hev. simpl in Hev. congruence.
  - injection E as -> E. destruct (IH pre Hq E Hc) as [k ->]. by exists k.
Qed.

Lemma replay_quiet_view {V} (view : Env -> V) h e tr e' :
  (forall c env, is_mutation c = false -> view (snd (handle c env h)) = view env) ->
  replay h e tr e' -> quiet_events tr -> view e' = view e.
Proof.
  intros Hview. induction 1 as [|e c tr e' _ IH]; [done|].
  intros [Hc Hq]%Forall_cons. rewrite IH by done. by apply Hview.
Qed.

Lemma gates_passed_quiet p ft conf w addrs wg :
  gates_passed p ft conf w addrs wg ->
  exists g, effects w g wg /\ quiet_events g.
Proof.
  intros (w1 & ips & w2 & uniq & w3 & w4 & H1 & H2 & H3 & H4 & H5).
  apply (only_run harmless) in H1 as (t1 & E1 & Q1); [| apply quiet_confirmCleanUpExisting].
  apply (only_run harmless) in H2 as (t2 & E2 & Q2); [| apply quiet_getIPsFromFile].
  apply (only_run harmless) in H3 as (t3 & E3 & Q3); [| apply only_removeDuplicateIPs].
  apply (only_run harmless) in H4 as (t4 & E4 & Q4); [| apply only_filterOutHighEntropyIPs].
  assert (exists t5, effects w4 t5 wg /\ quiet_events t5) as (t5 & E5 & Q5).
  { destruct (len addrs <? InputMinAddresses conf).
    - apply (only_run harmless) in H5; [done | apply quiet_confirmTooFew].
    - subst wg. exists []. split; [apply effects_refl | constructor]. }
  exists (t1 ++ t2 ++ t3 ++ t4 ++ t5)%list. split.
  - repeat (eapply effects_trans; [eassumption|]). done.
  - unfold quiet_events in *. by rewrite !Forall_app.
Qed.

Lemma PrepareFromInputFile_after_gates p ft conf w addrs wg :
  gates_passed p ft conf w addrs wg ->
  PrepareFromInputFile p ft conf w
  = (err <- cleanUpWorkingDirectories conf ;;
     check err ;;
     err <- createBlankModel p conf ;;
     check err ;;
     writeNewAddresses addrs conf ;;;
     err <- updateState conf ;;
     check err ;;
     ret None) wg.
Proof.
  intros (w1 & ips & w2 & uniq & w3 & w4 & H1 & H2 & H3 & H4 & H5).
  unfold PrepareFromInputFile. unfold bind at 1. rewrite H1.
  unfold bind at 1. rewrite H2. unfold bind at 1. rewrite H3.
  unfold bind at 1. rewrite H4. unfold bind at 1.
  destruct (len addrs <? InputMinAddresses conf).
  - by rewrite H5.
  - by subst wg.
Qed.

Lemma PrepareFromInputFile_stops_or_passes p ft conf w :
  (exists addrs wg, gates_passed p ft conf w addrs wg)
  \/ (exists tr, effects w tr (snd (PrepareFromInputFile p ft conf w))
                 /\ quiet_events tr).
Proof.
  unfold PrepareFromInputFile, gates_passed.
  destruct (confirmCleanUpExisting p conf w) as [o1 w1] eqn:H1.
  pose proof (only_run harmless _ _ _ _ (quiet_confirmCleanUpExisting p conf) H1) as (t1 & E1 & Q1).
  unfold bind at 1. rewrite H1.
  destruct o1 as [[e|]|msg]; [right; eauto | | right; eauto].
  destruct (getIPsFromFile p ft w1) as [o2 w2] eqn:H2.
  pose proof (only_run harmless _ _ _ _ (quiet_getIPsFromFile p ft) H2) as (t2 & E2 & Q2).
  assert (Q12 : quiet_events (t1 ++ t2)) by by apply Forall_app.
  pose proof (effects_trans _ _ _ _ _ E1 E2) as E12.
  unfold bind at 1. rewrite H2.
  destruct o2 as [[ips [e|]]|msg]; [right; eauto | | right; eauto].
  destruct (removeDuplicateIPs ips conf w2) as [o3 w3] eqn:H3.
  pose proof (only_run harmless _ _ _ _ (only_removeDuplicateIPs _ ips conf) H3) as (t3 & E3 & Q3).
  assert (Q13 : quiet_events ((t1 ++ t2) ++ t3)) by by apply Forall_app.
  pose proof (effects_trans _ _ _ _ _ E12 E3) as E13.
  unfold bind at 1. rewrite H3.
  destruct o3 as [uniq|msg]; [| right; eauto].
  destruct (filterOutHighEntropyIPs uniq conf w3) as [o4 w4] eqn:H4.
  pose proof (only_run harmless _ _ _ _ (only_filterOutHighEntropyIPs _ uniq conf) H4) as (t4 & E4 & Q4).
  assert (Q14 : quiet_events (((t1 ++ t2) ++ t3) ++ t4)) by by apply Forall_app.
  pose proof (effects_trans _ _ _ _ _ E13 E4) as E14.
  unfold bind at 1. rewrite H4.
  destruct o4 as [addrs|msg]; [| right; eauto].
  unfold bind at 1.
  destruct (len addrs <? InputMinAddresses conf) eqn:Hlt.
  - destruct (confirmTooFew (len addrs) conf w4) as [o5 w5] eqn:H5.
    pose proof (only_run harmless _ _ _ _ (quiet_confirmTooFew _ conf) H5) as (t5 & E5 & Q5).
    assert (Q15 : quiet_events ((((t1 ++ t2) ++ t3) ++ t4) ++ t5)) by by apply Forall_app.
    pose proof (effects_trans _ _ _ _ _ E14 E5) as E15.
    destruct o5 as [[e|]|msg]; [right; eauto | | right; eauto].
    left. exists addrs, w5, w1, ips, w2, uniq, w3, w4. rewrite Hlt. auto.
  - left. exists addrs, w4, w1, ips, w2, uniq, w3, w4. rewrite Hlt. auto.
Qed.

Lemma traced_after_gates p conf addrs :
  only (fun _ => True)
    (err <- cleanUpWorkingDirectories conf ;;
     check err ;;
     err <- createBlankModel p conf ;;
     check err ;;
     writeNewAddresses addrs conf ;;;
     err <- updateState conf ;;
     check err ;;
     ret None).
Proof.
  repeat first
    [ apply traced_cleanUpWorkingDirectories | apply traced_createBlankModel
    | apply traced_writeNewAddresses | apply traced_updateState | only_step ].
Qed.

(** C2. In every run of [PrepareFromInputFile], whatever the outside
    answers, a call that changes files of the workspace (reset, model
    bootstrap, result write, state advance) has both gates before it: the
    operator approved the clean-up, the list was read, deduplicated and
    filtered, and its size was validated (at least the minimum, or the
    operator approved going on); and the calls up to that point changed
    no file. *)
Theorem PrepareFromInputFile_mutations_gated (inputFilePath fileType : string)
    (conf : Configuration) (w : World) :
  exists tr,
    effects w tr (snd (PrepareFromInputFile inputFilePath fileType conf w))
    /\ forall pre c r post,
         tr = (pre ++ Ev c r :: post)%list -> is_mutation c = true ->
         exists addrs wg g k,
           gates_passed inputFilePath fileType conf w addrs wg
           /\ effects w g wg /\ quiet_events g /\ pre = (g ++ k)%list.
Proof.
  destruct (PrepareFromInputFile_stops_or_passes inputFilePath fileType conf w)
    as [(addrs & wg & Hg) | (tr & E & Q)].
  - destruct (gates_passed_quiet _ _ _ _ _ _ Hg) as (g & Eg & Qg).
    rewrite (PrepareFromInputFile_after_gates _ _ _ _ _ _ Hg).
    destruct (traced_after_gates inputFilePath conf addrs wg) as (m & Em & _).
    exists (g ++ m)%list. split; [eapply effects_trans; eauto|].
    intros pre c r post Htr Hc.
    destruct (mutation_after_quiet _ _ _ _ _ _ Qg Htr Hc) as [k ->].
    exists addrs, wg, g, k. auto.
  - exists tr. split; [done|]. intros pre c r post Htr Hc.
    destruct (quiet_events_no_mutation _ _ _ _ _ Q Htr Hc).
Qed.

(** C6. When the addresses left after filtering are fewer than the minimum
    and the operator declines to go on, [PrepareFromInputFile] returns the
    error of the declined prompt, and the run made no call that deletes or
    writes files of the workspace: whatever of the outside the harmless
    calls leave alone is as it was. *)
Theorem PrepareFromInputFile_declined_too_few
    (inputFilePath fileType : string) (conf : Configuration)
    (w w1 w2 w3 w4 w5 : World) (ips uniq addrs : list ptr) (e : error) :
  confirmCleanUpExisting inputFilePath conf w = (Ok None, w1) ->
  getIPsFromFile inputFilePath fileType w1 = (Ok (ips, None), w2) ->
  removeDuplicateIPs ips conf w2 = (Ok uniq, w3) ->
  filterOutHighEntropyIPs uniq conf w3 = (Ok addrs, w4) ->
  len addrs < InputMinAddresses conf ->
  confirmTooFew (len addrs) conf w4 = (Ok (Some e), w5) ->
  PrepareFromInputFile inputFilePath fileType conf w = (Ok (Some e), w5)
  /\ exists tr,
       effects w tr w5 /\ quiet_events tr
       /\ forall (V : Type) (view : Env -> V),
            (forall c env, is_mutation c = false ->
                           view (snd (handle c env (w_heap w))) = view env) ->
            view (w_env w5) = view (w_env w).
Proof.
  intros H1 H2 H3 H4 Hlt H5.
  assert (Hrun : PrepareFromInputFile inputFilePath fileType conf w = (Ok (Some e), w5)).
  { unfold PrepareFromInputFile. unfold bind at 1. rewrite H1.
    unfold bind at 1. rewrite H2. unfold bind at 1. rewrite H3.
    unfold bind at 1. rewrite H4. unfold bind at 1.
    apply Z.ltb_lt in Hlt. rewrite Hlt, H5. reflexivity. }
  split; [exact Hrun|].
  apply (only_run harmless) in H1 as (t1 & E1 & Q1); [| apply quiet_confirmCleanUpExisting].
  apply (only_run harmless) in H2 as (t2 & E2 & Q2); [| apply quiet_getIPsFromFile].
  apply (only_run harmless) in H3 as (t3 & E3 & Q3); [| apply only_removeDuplicateIPs].
  apply (only_run harmless) in H4 as (t4 & E4 & Q4); [| apply only_filterOutHighEntropyIPs].
  apply (only_run harmless) in H5 as (t5 & E5 & Q5); [| apply quiet_confirmTooFew].
  assert (E : effects w (t1 ++ t2 ++ t3 ++ t4 ++ t5) w5).
  { repeat (eapply effects_trans; [eassumption|]). done. }
  assert (Q : quiet_events (t1 ++ t2 ++ t3 ++ t4 ++ t5)).
  { unfold quiet_events in *. by rewrite !Forall_app. }
  eexists. split; [exact E|]. split; [exact Q|].
  intros V view Hview. destruct E as (_ & _ & Hr).
  eapply replay_quiet_view; eauto.
Qed.

Lemma cleanUpWorkingDirectories_failed conf w e w' :
  cleanUpWorkingDirectories conf w = (Ok (Some e), w') ->
  exists n, effects w [Ev (DeleteAllFilesInDirectory (BaseOutputDirectory conf)) (n, Some e)] w'.
Proof.
  unfold cleanUpWorkingDirectories, bind; cbn [Printf].
  match goal with |- context [invoke ?c ?w0] =>
    pose proof (effects_invoke c w0) as Hi; destruct (invoke c w0) as [o wi] eqn:Ei end.
  unfold invoke in Ei. simpl in Ei, Hi.
  destruct (handle _ _ _) as [[n err] env'] eqn:Eh. injection Ei as <- <-.
  simpl in Hi. destruct err as [e'|]; cbn [Printf ret]; intros [= <- <-].
  exists n. destruct Hi as (Hh & Ht & Hr). repeat split; done.
Qed.

(** C7. When the gates are passed and the workspace reset fails,
    [PrepareFromInputFile] returns the error of the reset at once: the
    failed [DeleteAllFilesInDirectory] is the last call of the run and the
    only one that touches the workspace, so the model is not saved, the
    addresses are not written and the state file is not set. *)
Theorem PrepareFromInputFile_reset_failure
    (inputFilePath fileType : string) (conf : Configuration)
    (w wg w' : World) (addrs : list ptr) (e : error) :
  gates_passed inputFilePath fileType conf w addrs wg ->
  cleanUpWorkingDirectories conf wg = (Ok (Some e), w') ->
  PrepareFromInputFile inputFilePath fileType conf w = (Ok (Some e), w')
  /\ exists g n,
       effects w (g ++ [Ev (DeleteAllFilesInDirectory (BaseOutputDirectory conf))
                          (n, Some e)]) w'
       /\ quiet_events g
       /\ forall ev, In ev (g ++ [Ev (DeleteAllFilesInDirectory (BaseOutputDirectory conf))
                                     (n, Some e)]) ->
            match call_of ev with
            | Save _ _ | WriteIPsToHexFile _ _ | SetStateFile _ _ => False
            | _ => True
            end.
Proof.
  intros Hg Hc. split.
  - rewrite (PrepareFromInputFile_after_gates _ _ _ _ _ _ Hg).
    unfold bind at 1. by rewrite Hc.
  - destruct (gates_passed_quiet _ _ _ _ _ _ Hg) as (g & Eg & Qg).
    destruct (cleanUpWorkingDirectories_failed _ _ _ _ Hc) as (n & En).
    exists g, n. split; [eapply effects_trans; eauto|]. split; [done|].
    intros ev [Hin | [<- | []]]%in_app_or; [| done].
    unfold quiet_events in Qg. rewrite Forall_forall in Qg.
    apply list_elem_of_In, Qg in Hin. unfold harmless in Hin.
    by destruct (call_of ev).
Qed.

(** What the code does with a failed write (see C1): once the model is
    saved, [updateState] runs from the world [writeNewAddresses] left,
    whatever [writeNewAddresses] returned. *)
Lemma PrepareFromInputFile_drops_write_result p ft conf w addrs wg wa wb wc r :
  gates_passed p ft conf w addrs wg ->
  cleanUpWorkingDirectories conf wg = (Ok None, wa) ->
  createBlankModel p conf wa = (Ok None, wb) ->
  writeNewAddresses addrs conf wb = (Ok r, wc) ->
  PrepareFromInputFile p ft conf w
  = (err <- updateState conf ;; check err ;; ret None) wc.
Proof.
  intros Hg Ha Hb Hc. rewrite (PrepareFromInputFile_after_gates _ _ _ _ _ _ Hg).
  unfold bind at 1. rewrite Ha. unfold bind at 1. rewrite Hb.
  unfold bind at 1. by rewrite Hc.
Qed.

(** *** [updateAddressFile] *)

Lemma Sprintf_line s : Sprintf lineFormat [AStr s] = s ++ String "010" EmptyString.
Proof. reflexivity. Qed.

Lemma writeTextLoop_run writer pings :
  forall w, exists tr w',
    writeTextLoop writer pings w = (Ok tt, w')
    /\ effects w tr w' /\ w_log w' = w_log w
    /\ map call_of tr
       = map (fun a => WriteString writer (IPString (w_heap w a) ++ String "010" EmptyString)) pings.
Proof.
  induction pings as [|a pings IH]; intros w; simpl.
  - exists [], w. split; [done|]. split; [apply effects_refl | done].
  - unfold bind at 1. cbn [deref]. unfold bind at 1.
    match goal with |- context [invoke ?c ?w0] =>
      pose proof (effects_invoke c w0) as Hi; destruct (invoke c w0) as [o wi] eqn:Ei end.
    assert (Hlog : w_log wi = w_log w /\ exists r, o = Ok r).
    { unfold invoke in Ei. destruct (handle _ _ _). injection Ei as <- <-. eauto. }
    destruct Hlog as (Hlog & r & ->). simpl in Hi.
    destruct (IH wi) as (tr & w' & -> & E & Hl & Hc).
    eexists _, w'. split; [done|]. split; [eapply effects_trans; eauto|].
    split; [congruence|]. simpl. rewrite Hc. destruct Hi as (-> & _). done.
Qed.

Lemma writeBinLoop_run writer pings :
  forall w, exists tr w',
    writeBinLoop writer pings w = (Ok tt, w')
    /\ effects w tr w' /\ w_log w' = w_log w
    /\ map call_of tr = map (fun a => Write writer (w_heap w a)) pings.
Proof.
  induction pings as [|a pings IH]; intros w; simpl.
  - exists [], w. split; [done|]. split; [apply effects_refl | done].
  - unfold bind at 1. cbn [deref]. unfold bind at 1.
    match goal with |- context [invoke ?c ?w0] =>
      pose proof (effects_invoke c w0) as Hi; destruct (invoke c w0) as [o wi] eqn:Ei end.
    assert (Hlog : w_log wi = w_log w /\ exists r, o = Ok r).
    { unfold invoke in Ei. destruct (handle _ _ _). injection Ei as <- <-. eauto. }
    destruct Hlog as (Hlog & r & ->). simpl in Hi.
    destruct (IH wi) as (tr & w' & -> & E & Hl & Hc).
    eexists _, w'. split; [done|]. split; [eapply effects_trans; eauto|].
    split; [congruence|]. simpl. rewrite Hc. destruct Hi as (-> & _). done.
Qed.

Lemma invoke_run c w :
  invoke c w
  = (Ok (fst (handle c (w_env w) (w_heap w))),
     mkWorld (w_heap w) (w_log w)
       (w_trace w ++ [Ev c (fst (handle c (w_env w) (w_heap w)))])
       (snd (handle c (w_env w) (w_heap w)))).
Proof. unfold invoke. by destruct (handle c (w_env w) (w_heap w)). Qed.

Lemma updateAddressFile_run conf w pings file e1 e2 :
  handle (GetCleanPingResults (GetCleanPingDirPath conf)) (w_env w) (w_heap w)
    = ((pings, None), e1) ->
  handle (OpenFile (GetOutputFilePath conf)
            (Z.lor (Z.lor O_APPEND O_WRONLY) O_CREATE) perm0644) e1 (w_heap w)
    = ((file, None), e2) ->
  exists w' tr lg,
    updateAddressFile conf w = (Ok None, w')
    /\ w_heap w' = w_heap w
    /\ w_trace w' = (w_trace w ++ tr)%list
    /\ w_log w' = (w_log w ++ lg)%list
    /\ List.filter is_data_write (map call_of tr)
       = (if String.eqb (OutputFileType conf) "bin"
          then map (fun a => Write file (w_heap w a)) pings
          else map (fun a => WriteString file
                               (IPString (w_heap w a) ++ String "010" EmptyString)) pings)
    /\ (In (LogLine unexpectedFormat [LStr (OutputFileType conf)]) lg
        <-> OutputFileType conf <> "bin" /\ OutputFileType conf <> "text").
Proof.
  intros Hrd Hop. unfold updateAddressFile.
  unfold bind at 1. rewrite invoke_run, Hrd. cbn [snd fst].
  unfold bind at 1. cbn [Printf]. unfold bind at 1. rewrite invoke_run. cbn [w_env w_heap].
  rewrite Hop. cbn [snd fst w_log w_trace].
  unfold bind at 1. rewrite invoke_run. cbn [w_env w_heap w_log w_trace fst snd].
  unfold bind at 1. unfold NewWriter.
  match goal with |- context [(if negb _ then _ else _) ?w0] => set (wa := w0) end.
  assert (Hphase : exists trw lgw wb,
    (if negb (String.eqb (OutputFileType conf) "bin")
     then (if negb (String.eqb (OutputFileType conf) "text")
           then Printf unexpectedFormat [LStr (OutputFileType conf)]
           else ret tt) ;;; writeTextLoop file pings
     else writeBinLoop file pings) wa = (Ok tt, wb)
    /\ w_heap wb = w_heap w
    /\ w_trace wb = (w_trace wa ++ trw)%list
    /\ w_log wb = (w_log wa ++ lgw)%list
    /\ map call_of trw
       = (if String.eqb (OutputFileType conf) "bin"
          then map (fun a => Write file (w_heap w a)) pings
          else map (fun a => WriteString file
                               (IPString (w_heap w a) ++ String "010" EmptyString)) pings)
    /\ (In (LogLine unexpectedFormat [LStr (OutputFileType conf)]) lgw
        <-> OutputFileType conf <> "bin" /\ OutputFileType conf <> "text")).
  { destruct (String.eqb_spec (OutputFileType conf) "bin") as [Hb|Hb]; cbn [negb].
    - destruct (writeBinLoop_run file pings wa) as (trw & wb & -> & (Hh & Ht & _) & Hl & Hc).
      exists trw, [], wb. rewrite app_nil_r. repeat split; try done.
      intros [? _]; done.
    - unfold bind at 1.
      destruct (String.eqb_spec (OutputFileType conf) "text") as [Ht|Ht]; cbn [negb Printf ret].
      + destruct (writeTextLoop_run file pings wa) as (trw & wb & -> & (Hh & Htr & _) & Hl & Hc).
        exists trw, [], wb. rewrite app_nil_r. repeat split; try done.
        intros [_ ?]; done.
      + match goal with |- context [writeTextLoop _ _ ?w0] =>
          destruct (writeTextLoop_run file pings w0) as (trw & wb & -> & (Hh & Htr & _) & Hl & Hc) end.
        exists trw, [LogLine unexpectedFormat [LStr (OutputFileType conf)]], wb.
        repeat split; try done. by left. }
  destruct Hphase as (trw & lgw & wb & -> & Hh & Htr & Hlg & Hcalls & Hwarn).
  unfold bind at 1. rewrite invoke_run. unfold bind at 1. rewrite invoke_run.
  unfold bind at 1. rewrite invoke_run. unfold bind at 1. cbn [Printf].
  unfold bind at 1. rewrite invoke_run. cbn [ret w_heap w_log w_trace w_env fst snd].
  eexists _, _, _. split; [reflexivity|]. cbn [w_heap w_log w_trace].
  split; [done|]. rewrite Htr, Hlg. subst wa. cbn [w_trace w_log].
  split; [by rewrite <- !app_assoc|]. split; [by rewrite <- !app_assoc|].
  split.
  - rewrite !map_app, !List.filter_app. simpl. rewrite app_nil_r, Hcalls.
    apply List_filter_all. intros c Hc.
    destruct (String.eqb (OutputFileType conf) "bin");
      apply in_map_iff in Hc as (a & <- & _); done.
  - rewrite <- Hwarn. rewrite !in_app_iff. simpl. unfold unexpectedFormat.
    split; [| tauto]. intros [[H|[]] | [? | [H|[]]]]; [discriminate H | done | discriminate H].
Qed.

(** C8. When the clean ping results are read and the output file is
    opened, [updateAddressFile] hands the writer, in order, for each
    address: its raw bytes when [OutputFileType] is "bin"; otherwise its
    textual form followed by a newline.  The warning that the format is
    unexpected and text is used is logged exactly when the type is neither
    "bin" nor "text". *)
Theorem updateAddressFile_writes (conf : Configuration) (w : World)
    (pings : list ptr) (file : File) (e1 e2 : Env) :
  handle (GetCleanPingResults (GetCleanPingDirPath conf)) (w_env w) (w_heap w)
    = ((pings, None), e1) ->
  handle (OpenFile (GetOutputFilePath conf)
            (Z.lor (Z.lor O_APPEND O_WRONLY) O_CREATE) perm0644) e1 (w_heap w)
    = ((file, None), e2) ->
  exists w' tr lg,
    updateAddressFile conf w = (Ok None, w')
    /\ w_trace w' = (w_trace w ++ tr)%list
    /\ w_log w' = (w_log w ++ lg)%list
    /\ List.filter is_data_write (map call_of tr)
       = (if String.eqb (OutputFileType conf) "bin"
          then map (fun a => Write file (w_heap w a)) pings
          else map (fun a => WriteString file
                               (IPString (w_heap w a) ++ String "010" EmptyString)) pings)
    /\ (In (LogLine unexpectedFormat [LStr (OutputFileType conf)]) lg
        <-> OutputFileType conf <> "bin" /\ OutputFileType conf <> "text").
Proof.
  intros Hrd Hop.
  destruct (updateAddressFile_run conf w pings file e1 e2 Hrd Hop)
    as (w' & tr & lg & H & _ & ?). eauto.
Qed.

(** C10. [updateAddressFile] never panics, and what it returns is decided
    by two calls only: the error of reading the clean ping results if
    there is one, otherwise the error of opening the output file, which is
    nil when the file was opened.  What the writes and the flush return
    does not enter the result. *)
Theorem updateAddressFile_result (conf : Configuration) (w : World) :
  let rd := handle (GetCleanPingResults (GetCleanPingDirPath conf))
                   (w_env w) (w_heap w) in
  let op := handle (OpenFile (GetOutputFilePath conf)
                      (Z.lor (Z.lor O_APPEND O_WRONLY) O_CREATE) perm0644)
                   (snd rd) (w_heap w) in
  fst (updateAddressFile conf w)
  = Ok (match snd (fst rd) with
        | Some e => Some e
        | None => snd (fst op)
        end).
Proof.
  intros rd op.
  destruct rd as [[pings err1] e1] eqn:Erd. cbn [fst snd] in *.
  destruct err1 as [e|].
  { unfold updateAddressFile. unfold bind at 1. rewrite invoke_run.
    subst rd. rewrite Erd. reflexivity. }
  destruct op as [[file err2] e2] eqn:Eop. cbn [fst snd].
  destruct err2 as [e|].
  { unfold updateAddressFile. unfold bind at 1. rewrite invoke_run.
    subst rd. rewrite Erd. cbn [fst snd].
    unfold bind at 1. cbn [Printf]. unfold bind at 1. rewrite invoke_run.
    cbn [w_env w_heap]. subst op. rewrite Eop. reflexivity. }
  destruct (updateAddressFile_run conf w pings file e1 e2) as (w' & _ & _ & -> & _); done.
Qed.
End Facts.

(** ** The simulated outside: runs, witnesses, a failing run *)

(** The scenario of the spec, on the list [1; 2; 3; 2] where 1 and 3 hold
    the same bytes: deduplication keeps [1; 2]. *)
Example removeDuplicateIPs_example :
  fst (removeDuplicateIPs [1; 2; 3; 2]%N Sim.conf (Sim.world Sim.outside))
  = Ok [1; 2]%N.
Proof. reflexivity. Qed.

Example filterOutHighEntropyIPs_example :
  fst (filterOutHighEntropyIPs [1; 2; 3]%N Sim.conf (Sim.world Sim.outside))
  = Ok [1; 3]%N.
Proof. reflexivity. Qed.

Example filterOutHighEntropyIPs_zero_interval :
  fst (filterOutHighEntropyIPs [1; 2; 3]%N
         (Sim.conf_with 0 posInf "text") (Sim.world Sim.outside))
  = Panic "runtime error: integer divide by zero".
Proof. reflexivity. Qed.

Example tooFewPrompt_example :
  tooFewPrompt 1 Sim.conf
  = "The resulting list of addresses is only 1 long, and we recommend having at least 2 to get good results. Continue? [y/N]".
Proof. reflexivity. Qed.

(** An approved run makes its four workspace-changing calls, in the order
    reset, bootstrap, write, state advance, after both prompts. *)
Example PrepareFromInputFile_approved_run :
  let r := PrepareFromInputFile "in.hex" "hex" Sim.conf (Sim.world Sim.outside) in
  fst r = Ok None
  /\ map call_of (w_trace (snd r))
     = [PromptForApproval (cleanUpPrompt "in.hex") (cleanUpErrMsg Sim.conf);
        ReadIPsFromHexFile "in.hex";
        PromptForApproval (tooFewPrompt 1 Sim.conf) tooFewErrMsg;
        DeleteAllFilesInDirectory "out";
        GetTimedFilePath "out/model";
        Save "Model from in.hex" "out/model/7";
        GetTimedFilePath "out/ping";
        WriteIPsToHexFile "out/ping/7" [1%N];
        SetStateFile "out/state" "NETWORK_GROUP"]
  /\ Sim.phase (w_env (snd r)) = "NETWORK_GROUP".
Proof. vm_compute. repeat split. Qed.

(** Witness of [filterOutHighEntropyIPs_retains]. *)
Lemma filterOutHighEntropyIPs_retains_witness :
  (InputEmitFreq Sim.conf <> 0 \/ [1; 2; 3]%N = [])
  /\ exists out w',
       filterOutHighEntropyIPs [1; 2; 3]%N Sim.conf (Sim.world Sim.outside) = (Ok out, w')
       /\ out = List.filter (lowEntropy Sim.conf Sim.addrs) [1; 2; 3]%N
       /\ (forall ip, In ip out <->
             In ip [1; 2; 3]%N /\
             SFltb (Sim.score (Sim.addrs ip) 64) (S754_finite false 5 0) = true)
       /\ w_heap w' = Sim.addrs.
Proof.
  split; [left; discriminate|].
  apply (filterOutHighEntropyIPs_retains Sim.conf [1; 2; 3]%N (Sim.world Sim.outside)).
  left; discriminate.
Defined.


(** Witness of [filterOutHighEntropyIPs_total_needs_nonzero]: with the
    interval zero the filter panics on a list of three. *)
Lemma filterOutHighEntropyIPs_total_needs_nonzero_witness :
  InputEmitFreq MoreSim.conf_zero = 0
  /\ [1; 2; 3]%N <> []
  /\ fst (filterOutHighEntropyIPs [1; 2; 3]%N MoreSim.conf_zero (Sim.world Sim.outside))
     = Panic "runtime error: integer divide by zero".
Proof.
  split; [reflexivity|]. split; [discriminate|].
  apply (proj1 (filterOutHighEntropyIPs_total_needs_nonzero MoreSim.conf_zero
                  (Sim.world Sim.outside))); [reflexivity | discriminate].
Defined.

(** Witness of [PrepareFromInputFile_declined_too_few]: the operator
    approves the clean-up and declines to go on with one address. *)
Lemma PrepareFromInputFile_declined_too_few_witness :
  let w := Sim.world Sim.declining in
  let r := PrepareFromInputFile "in.hex" "hex" Sim.conf w in
  fst r = Ok (Some (mkError tooFewErrMsg))
  /\ exists tr,
       effects w tr (snd r) /\ quiet_events tr
       /\ Sim.workspace (w_env (snd r)) = Sim.workspace (w_env w)
       /\ Sim.phase (w_env (snd r)) = Sim.phase (w_env w).
Proof.
  intros w r.
  pose (w1 := snd (confirmCleanUpExisting "in.hex" Sim.conf w)).
  pose (w2 := snd (getIPsFromFile "in.hex" "hex" w1)).
  pose (w3 := snd (removeDuplicateIPs [1; 2; 3; 2]%N Sim.conf w2)).
  pose (w4 := snd (filterOutHighEntropyIPs [1; 2]%N Sim.conf w3)).
  pose (w5 := snd (confirmTooFew 1 Sim.conf w4)).
  destruct (PrepareFromInputFile_declined_too_few "in.hex" "hex" Sim.conf
              w w1 w2 w3 w4 w5 [1; 2; 3; 2]%N [1; 2]%N [1]%N (mkError tooFewErrMsg))
    as (Hrun & tr & E & Q & Hview); try reflexivity.
  split; [reflexivity|]. exists tr. subst r. rewrite Hrun. cbn [snd].
  split; [exact E|]. split; [exact Q|]. split.
  - apply (Hview _ Sim.workspace). intros c env Hc. destruct c; try discriminate Hc;
      try reflexivity; simpl; unfold handle, Sim.handler, Sim.answer;
      by repeat case_match.
  - apply (Hview _ Sim.phase). intros c env Hc. destruct c; try discriminate Hc;
      try reflexivity; simpl; unfold handle, Sim.handler, Sim.answer;
      by repeat case_match.
Defined.

(** Witness of [PrepareFromInputFile_reset_failure]: both prompts are
    approved and the reset fails. *)
Lemma PrepareFromInputFile_reset_failure_witness :
  let w := Sim.world Sim.reset_fails in
  let r := PrepareFromInputFile "in.hex" "hex" Sim.conf w in
  fst r = Ok (Some (mkError "permission denied"))
  /\ exists g n,
       effects w (g ++ [Ev (DeleteAllFilesInDirectory "out")
                          (n, Some (mkError "permission denied"))]) (snd r)
       /\ quiet_events g.
Proof.
  intros w r.
  pose (w1 := snd (confirmCleanUpExisting "in.hex" Sim.conf w)).
  pose (w2 := snd (getIPsFromFile "in.hex" "hex" w1)).
  pose (w3 := snd (removeDuplicateIPs [1; 2; 3; 2]%N Sim.conf w2)).
  pose (w4 := snd (filterOutHighEntropyIPs [1; 2]%N Sim.conf w3)).
  pose (wg := snd (confirmTooFew 1 Sim.conf w4)).
  pose (w' := snd (cleanUpWorkingDirectories Sim.conf wg)).
  destruct (PrepareFromInputFile_reset_failure "in.hex" "hex" Sim.conf
              w wg w' [1]%N (mkError "permission denied"))
    as (Hrun & g & n & E & Q & _).
  - exists w1, [1; 2; 3; 2]%N, w2, [1; 2]%N, w3, w4. repeat split; reflexivity.
  - reflexivity.
  - split; [reflexivity|]. exists g, n. subst r. rewrite Hrun. by split.
Defined.

(** Witness of [updateAddressFile_writes]: two addresses written as text. *)
Lemma updateAddressFile_writes_witness :
  let w := Sim.world Sim.outside in
  exists w' tr lg,
    updateAddressFile Sim.conf w = (Ok None, w')
    /\ w_trace w' = tr
    /\ w_log w' = lg
    /\ List.filter is_data_write (map call_of tr)
       = [WriteString 3 ("200100" ++ String "010" EmptyString);
          WriteString 3 ("200107" ++ String "010" EmptyString)]
    /\ (In (LogLine unexpectedFormat [LStr "text"]) lg
        <-> "text" <> "bin" /\ "text" <> "text").
Proof.
  intros w.
  apply (updateAddressFile_writes Sim.conf w [1; 2]%N 3 Sim.outside Sim.outside);
    reflexivity.
Defined.

Example updateAddressFile_bin :
  List.filter is_data_write
    (map call_of (w_trace (snd (updateAddressFile Sim.conf_bin (Sim.world Sim.outside)))))
  = [Write 3 [Byte.x20; Byte.x01; Byte.x00]; Write 3 [Byte.x20; Byte.x01; Byte.x07]].
Proof. reflexivity. Qed.

Example updateAddressFile_unknown_type :
  let r := updateAddressFile Sim.conf_csv (Sim.world Sim.outside) in
  w_log (snd r)
  = [LogLine "Updating file at path '%s' with %d newly-found IP addresses."
       [LStr "out/out"; LInt 2];
     LogLine unexpectedFormat [LStr "csv"];
     LogLine "Finished writing %d addresses to '%s'." [LInt 2; LStr "out/out"]]
  /\ Sim.output (w_env (snd r))
     = list_byte_of_string ("200100" ++ String "010" ("200107" ++ String "010" EmptyString)).
Proof. vm_compute. split; reflexivity. Qed.

(** With every buffered write and the flush failing, nothing reaches the
    output file and [updateAddressFile] still returns nil. *)
Example updateAddressFile_failed_writes :
  let r := updateAddressFile Sim.conf (Sim.world Sim.writer_fails) in
  fst r = Ok None
  /\ Sim.output (w_env (snd r)) = []
  /\ In (Ev (Flush 3) (Some (mkError "disk full"))) (w_trace (snd r)).
Proof. vm_compute. repeat split. do 5 right. by left. Qed.

(** C9, the claim as stated fails: with the interval -1 the filter returns
    for every list - here [1; 3] for [1; 2; 3], logging at every index -
    so returning for every list does not need a positive interval. *)
Lemma filterOutHighEntropyIPs_negative_interval :
  fst (filterOutHighEntropyIPs [1; 2; 3]%N Sim.conf_neg (Sim.world Sim.outside))
    = Ok [1; 3]%N
  /\ ~ (forall conf : Configuration,
          (forall ips w, exists out,
             fst (filterOutHighEntropyIPs ips conf w) = Ok out) ->
          0 < InputEmitFreq conf).
Proof.
  split; [reflexivity|]. intros H.
  assert (Hpos : 0 < InputEmitFreq Sim.conf_neg).
  { apply H. intros ips w.
    destruct (filterOutHighEntropyIPs_returns Sim.conf_neg ips w) as (w' & -> & _);
      [left; discriminate | eauto]. }
  discriminate Hpos.
Qed.


(** C1, the failing run: both prompts approved, reset and bootstrap
    succeed, writing the surviving addresses fails - and the state file is
    set to [NETWORK_GROUP] all the same, and the run returns nil. *)
Theorem PrepareFromInputFile_advances_after_failed_write :
  let w := Sim.world Sim.write_fails in
  let r := PrepareFromInputFile "in.hex" "hex" Sim.conf w in
  fst r = Ok None
  /\ (exists pre,
        w_trace (snd r)
        = (pre ++ [Ev (WriteIPsToHexFile "out/ping/7" [1%N]) (Some (mkError "disk full"));
                   Ev (SetStateFile "out/state" "NETWORK_GROUP") None])%list)
  /\ Sim.phase (w_env w) = "GENERATE"
  /\ Sim.phase (w_env (snd r)) = "NETWORK_GROUP"
  /\ ~ In "out/ping/7" (Sim.workspace (w_env (snd r))).
Proof.
  vm_compute. split; [reflexivity|]. split; [| split; [reflexivity|split;[reflexivity|]]].
  - eexists (_ :: _ :: _ :: _ :: _ :: _ :: _ :: []). reflexivity.
  - intros [H|[]]. discriminate H.
Qed.

(** ** More on [PrepareFromInputFile] and [updateAddressFile] *)
Section Runs.
Context `{Ext : Externals} {Hd : Handler}.

(** The runs of the small functions, by what the outside answers. *)
Lemma confirmCleanUpExisting_run p conf w :
  confirmCleanUpExisting p conf w
  = invoke (PromptForApproval (cleanUpPrompt p) (cleanUpErrMsg conf)) w.
Proof.
  unfold confirmCleanUpExisting, bind. rewrite invoke_run. by destruct (fst _).
Qed.

Lemma confirmTooFew_run n conf w :
  confirmTooFew n conf w
  = invoke (PromptForApproval (tooFewPrompt n conf) tooFewErrMsg) w.
Proof. unfold confirmTooFew, bind. rewrite invoke_run. by destruct (fst _). Qed.

(** A computation that ends in no panic. *)
Lemma getIPsFromFile_returns p ft w :
  exists r w', getIPsFromFile p ft w = (Ok r, w').
Proof.
  unfold getIPsFromFile, bind.
  destruct (String.eqb ft "bin"); rewrite invoke_run;
    destruct (fst _) as [l [e|]]; cbn [Printf ret]; eauto.
Qed.

Lemma cleanUpWorkingDirectories_returns conf w :
  exists r w', cleanUpWorkingDirectories conf w = (Ok r, w').
Proof.
  unfold cleanUpWorkingDirectories, bind. cbn [Printf]. rewrite invoke_run.
  destruct (fst _) as [n [e|]]; cbn [Printf ret]; eauto.
Qed.

Lemma createBlankModel_returns p conf w :
  exists r w', createBlankModel p conf w = (Ok r, w').
Proof.
  unfold createBlankModel, bind. cbn [Printf]. rewrite invoke_run. cbn [Printf].
  rewrite invoke_run. destruct (fst _) as [e|]; cbn [Printf ret]; eauto.
Qed.

Lemma writeNewAddresses_returns a conf w :
  exists r w', writeNewAddresses a conf w = (Ok r, w').
Proof.
  unfold writeNewAddresses, bind. rewrite invoke_run. cbn [Printf].
  rewrite invoke_run. destruct (fst _) as [e|]; cbn [Printf ret]; eauto.
Qed.

Lemma updateState_returns conf w :
  exists r w', updateState conf w = (Ok r, w').
Proof.
  unfold updateState, bind. rewrite invoke_run.
  destruct (fst _) as [e|]; cbn [Printf ret]; eauto.
Qed.

Lemma updateState_nil conf w w' :
  updateState conf w = (Ok None, w') ->
  w_trace w' = (w_trace w ++ [Ev (SetStateFile (GetStateFilePath conf) NETWORK_GROUP) None])%list.
Proof.
  unfold updateState, bind. rewrite invoke_run.
  destruct (fst _) as [e|] eqn:E; cbn [Printf ret]; intros [= <-]. done.
Qed.


(** Where a run of [PrepareFromInputFile] stands when it leaves the part
    before the reset: past the gates, stopped with an error, or stopped by
    a panic - the last two without a call that changes the workspace. *)
Lemma PrepareFromInputFile_before_reset p ft conf w :
  (exists addrs wg, gates_passed p ft conf w addrs wg)
  \/ (exists e w' tr,
        PrepareFromInputFile p ft conf w = (Ok (Some e), w')
        /\ effects w tr w' /\ quiet_events tr)
  \/ (exists msg w' tr,
        PrepareFromInputFile p ft conf w = (Panic msg, w')
        /\ effects w tr w' /\ quiet_events tr).
Proof.
  remember (PrepareFromInputFile p ft conf w) as R eqn:HR.
  unfold PrepareFromInputFile in HR. unfold gates_passed.
  destruct (confirmCleanUpExisting p conf w) as [o1 w1] eqn:H1.
  pose proof (only_run harmless _ _ _ _ (quiet_confirmCleanUpExisting p conf) H1) as (t1 & E1 & Q1).
  unfold bind at 1 in HR. rewrite H1 in HR.
  assert (exists r, o1 = Ok r) as [r1 ->].
  { rewrite confirmCleanUpExisting_run, invoke_run in H1. injection H1 as <- _. eauto. }
  destruct r1 as [e|]; [right; left; eauto 10|].
  destruct (getIPsFromFile_returns p ft w1) as ([ips r2] & w2 & H2).
  pose proof (only_run harmless _ _ _ _ (quiet_getIPsFromFile p ft) H2) as (t2 & E2 & Q2).
  assert (Q12 : quiet_events (t1 ++ t2)) by by apply Forall_app.
  pose proof (effects_trans _ _ _ _ _ E1 E2) as E12.
  unfold bind at 1 in HR. rewrite H2 in HR.
  destruct r2 as [e|]; [right; left; eauto 10|].
  destruct (removeDuplicateIPs ips conf w2) as [o3 w3] eqn:H3.
  pose proof (only_run harmless _ _ _ _ (only_removeDuplicateIPs _ ips conf) H3) as (t3 & E3 & Q3).
  assert (Q13 : quiet_events ((t1 ++ t2) ++ t3)) by by apply Forall_app.
  pose proof (effects_trans _ _ _ _ _ E12 E3) as E13.
  unfold bind at 1 in HR. rewrite H3 in HR.
  destruct o3 as [uniq|msg].
  2:{ right; right. exists msg, w3, ((t1 ++ t2) ++ t3)%list.
      split; [exact HR|]. by split. }
  destruct (filterOutHighEntropyIPs uniq conf w3) as [o4 w4] eqn:H4.
  pose proof (only_run harmless _ _ _ _ (only_filterOutHighEntropyIPs _ uniq conf) H4) as (t4 & E4 & Q4).
  assert (Q14 : quiet_events (((t1 ++ t2) ++ t3) ++ t4)) by by apply Forall_app.
  pose proof (effects_trans _ _ _ _ _ E13 E4) as E14.
  unfold bind at 1 in HR. rewrite H4 in HR.
  destruct o4 as [addrs|msg].
  2:{ right; right. exists msg, w4, (((t1 ++ t2) ++ t3) ++ t4)%list.
      split; [exact HR|]. by split. }
  unfold bind at 1 in HR.
  destruct (len addrs <? InputMinAddresses conf) eqn:Hlt.
  - destruct (confirmTooFew (len addrs) conf w4) as [o5 w5] eqn:H5.
    pose proof (only_run harmless _ _ _ _ (quiet_confirmTooFew _ conf) H5) as (t5 & E5 & Q5).
    assert (Q15 : quiet_events ((((t1 ++ t2) ++ t3) ++ t4) ++ t5)) by by apply Forall_app.
    pose proof (effects_trans _ _ _ _ _ E14 E5) as E15.
    assert (exists r, o5 = Ok r) as [r5 ->].
    { rewrite confirmTooFew_run, invoke_run in H5. injection H5 as <- _. eauto. }
    destruct r5 as [e|]; [right; left; eauto 10|].
    left. exists addrs, w5, w1, ips, w2, uniq, w3, w4. rewrite Hlt. auto.
  - left. exists addrs, w4, w1, ips, w2, uniq, w3, w4. rewrite Hlt. auto.
Qed.

(** Past the gates nothing panics: the run ends with the error of the
    reset, else of the bootstrap, else with what [updateState] returns. *)
Lemma PrepareFromInputFile_after_reset p ft conf w addrs wg :
  gates_passed p ft conf w addrs wg ->
  exists r1 wa, cleanUpWorkingDirectories conf wg = (Ok r1, wa) /\
    match r1 with
    | Some e => PrepareFromInputFile p ft conf w = (Ok (Some e), wa)
    | None =>
        exists r2 wb, createBlankModel p conf wa = (Ok r2, wb) /\
          match r2 with
          | Some e => PrepareFromInputFile p ft conf w = (Ok (Some e), wb)
          | None =>
              exists r3 wc r4 wd,
                writeNewAddresses addrs conf wb = (Ok r3, wc)
                /\ updateState conf wc = (Ok r4, wd)
                /\ PrepareFromInputFile p ft conf w = (Ok r4, wd)
          end
    end.
Proof.
  intros Hg. pose proof (PrepareFromInputFile_after_gates _ _ _ _ _ _ Hg) as HR.
  destruct (cleanUpWorkingDirectories_returns conf wg) as (r1 & wa & Ha).
  exists r1, wa. split; [done|]. unfold bind at 1 in HR. rewrite Ha in HR.
  destruct r1 as [e|]; [done|].
  destruct (createBlankModel_returns p conf wa) as (r2 & wb & Hb).
  exists r2, wb. split; [done|]. unfold bind at 1 in HR. rewrite Hb in HR.
  destruct r2 as [e|]; [done|].
  destruct (writeNewAddresses_returns addrs conf wb) as (r3 & wc & Hc).
  destruct (updateState_returns conf wc) as (r4 & wd & Hs).
  exists r3, wc, r4, wd. split; [done|]. split; [done|].
  unfold bind at 1 in HR. rewrite Hc in HR. unfold bind at 1 in HR. rewrite Hs in HR.
  rewrite HR. by destruct r4.
Qed.

(** X1. A run of [PrepareFromInputFile] that ends in a panic - as the
    entropy filter does on a log interval of zero - has made no call that
    changes the workspace: nothing after the gates panics, so a panic
    never leaves the workspace half reset. *)
Theorem PrepareFromInputFile_panics_before_reset
    (inputFilePath fileType : string) (conf : Configuration) (w : World)
    (msg : string) :
  fst (PrepareFromInputFile inputFilePath fileType conf w) = Panic msg ->
  exists tr,
    effects w tr (snd (PrepareFromInputFile inputFilePath fileType conf w))
    /\ quiet_events tr.
Proof.
  intros Hp.
  destruct (PrepareFromInputFile_before_reset inputFilePath fileType conf w)
    as [(addrs & wg & Hg) | [(e & w' & tr & E & _) | (msg' & w' & tr & E & He & Hq)]].
  - destruct (PrepareFromInputFile_after_reset _ _ _ _ _ _ Hg) as (r1 & wa & _ & H).
    destruct r1 as [e|]; [rewrite H in Hp; discriminate|].
    destruct H as (r2 & wb & _ & H).
    destruct r2 as [e|]; [rewrite H in Hp; discriminate|].
    destruct H as (r3 & wc & r4 & wd & _ & _ & H). rewrite H in Hp. discriminate.
  - rewrite E in Hp. discriminate.
  - rewrite E. eauto.
Qed.

Lemma PrepareFromInputFile_nil_run p ft conf w :
  fst (PrepareFromInputFile p ft conf w) = Ok None ->
  exists addrs wg wa wb r wc wd,
    gates_passed p ft conf w addrs wg
    /\ cleanUpWorkingDirectories conf wg = (Ok None, wa)
    /\ createBlankModel p conf wa = (Ok None, wb)
    /\ writeNewAddresses addrs conf wb = (Ok r, wc)
    /\ updateState conf wc = (Ok None, wd)
    /\ PrepareFromInputFile p ft conf w = (Ok None, wd).
Proof.
  intros Hn.
  destruct (PrepareFromInputFile_before_reset p ft conf w)
    as [(addrs & wg & Hg) | [(e & w' & tr & E & _) | (msg & w' & tr & E & _)]];
    [| rewrite E in Hn; discriminate | rewrite E in Hn; discriminate].
  destruct (PrepareFromInputFile_after_reset _ _ _ _ _ _ Hg) as (r1 & wa & Ha & H).
  destruct r1 as [e|]; [rewrite H in Hn; discriminate|].
  destruct H as (r2 & wb & Hb & H).
  destruct r2 as [e|]; [rewrite H in Hn; discriminate|].
  destruct H as (r3 & wc & r4 & wd & Hc & Hs & H). rewrite H in Hn.
  injection Hn as ->. exists addrs, wg, wa, wb, r3, wc, wd. auto 10.
Qed.

(** X2. [PrepareFromInputFile] returns nil exactly when the gates are
    passed and the reset, the bootstrap and the state advance succeed -
    whatever writing the addresses returned.  A nil return has
    [SetStateFile] with [NETWORK_GROUP], answered nil, as its last call. *)
Theorem PrepareFromInputFile_nil_iff
    (inputFilePath fileType : string) (conf : Configuration) (w : World) :
  (fst (PrepareFromInputFile inputFilePath fileType conf w) = Ok None
   <-> exists addrs wg wa wb r wc wd,
         gates_passed inputFilePath fileType conf w addrs wg
         /\ cleanUpWorkingDirectories conf wg = (Ok None, wa)
         /\ createBlankModel inputFilePath conf wa = (Ok None, wb)
         /\ writeNewAddresses addrs conf wb = (Ok r, wc)
         /\ updateState conf wc = (Ok None, wd))
  /\ (fst (PrepareFromInputFile inputFilePath fileType conf w) = Ok None ->
      exists pre,
        w_trace (snd (PrepareFromInputFile inputFilePath fileType conf w))
        = (pre ++ [Ev (SetStateFile (GetStateFilePath conf) NETWORK_GROUP) None])%list).
Proof.
  pose proof (PrepareFromInputFile_nil_run inputFilePath fileType conf w) as Hfwd.
  split; [split|].
  - intros Hn. destruct (Hfwd Hn) as (addrs & wg & wa & wb & r & wc & wd & ?).
    exists addrs, wg, wa, wb, r, wc, wd. tauto.
  - intros (addrs & wg & wa & wb & r & wc & wd & Hg & Ha & Hb & Hc & Hs).
    rewrite (PrepareFromInputFile_drops_write_result _ _ _ _ _ _ _ _ _ _ Hg Ha Hb Hc).
    unfold bind. by rewrite Hs.
  - intros Hn. destruct (Hfwd Hn) as (addrs & wg & wa & wb & r & wc & wd & _ & _ & _ & _ & Hs & ->).
    exists (w_trace wc). apply (updateState_nil _ _ _ Hs).
Qed.

(** The worlds the four steps after the gates leave, by the answers. *)
Lemma replay_step h e c r e' tr e'' :
  handle c e h = (r, e') -> replay h e' tr e'' -> replay h e (Ev c r :: tr) e''.
Proof.
  intros H Hr. pose proof (replay_cons h e c tr e'') as Hc.
  rewrite H in Hc. by apply Hc.
Qed.

Lemma invoke_answer c w r e :
  handle c (w_env w) (w_heap w) = (r, e) ->
  invoke c w = (Ok r, mkWorld (w_heap w) (w_log w) (w_trace w ++ [Ev c r]) e).
Proof. intros H. unfold invoke. by rewrite H. Qed.

Lemma effects_made w tr lg e :
  replay (w_heap w) (w_env w) tr e ->
  effects w tr (mkWorld (w_heap w) lg (w_trace w ++ tr) e).
Proof. by repeat split. Qed.

Lemma cleanUpWorkingDirectories_world conf w n r e :
  handle (DeleteAllFilesInDirectory (BaseOutputDirectory conf)) (w_env w) (w_heap w)
    = ((n, r), e) ->
  exists w',
    cleanUpWorkingDirectories conf w = (Ok r, w')
    /\ effects w [Ev (DeleteAllFilesInDirectory (BaseOutputDirectory conf)) (n, r)] w'.
Proof.
  intros H. unfold cleanUpWorkingDirectories, bind. cbn [Printf].
  erewrite invoke_answer by exact H.
  destruct r as [err|]; cbn [Printf ret w_heap w_env w_trace w_log];
    (eexists; split; [reflexivity|]); apply (effects_made w);
    (eapply replay_step; [exact H | constructor]).
Qed.

Lemma createBlankModel_world p conf w path e1 r e2 :
  handle (GetTimedFilePath (GetGeneratedModelDirPath conf)) (w_env w) (w_heap w)
    = (path, e1) ->
  handle (Save (NewAddressModel (Sprintf "Model from %s" [AStr p])) path) e1 (w_heap w)
    = (r, e2) ->
  exists w',
    createBlankModel p conf w = (Ok r, w')
    /\ effects w
         [Ev (GetTimedFilePath (GetGeneratedModelDirPath conf)) path;
          Ev (Save (NewAddressModel (Sprintf "Model from %s" [AStr p])) path) r] w'.
Proof.
  intros H1 H2. unfold createBlankModel, bind. cbn [Printf].
  erewrite invoke_answer by exact H1. cbn [Printf w_heap w_env w_trace w_log].
  erewrite invoke_answer by exact H2.
  destruct r as [err|]; cbn [Printf ret w_heap w_env w_trace w_log app];
    (eexists; split; [reflexivity|]);
    (split; [reflexivity|]; split; [cbn [w_trace]; by rewrite <- app_assoc|]);
    (eapply replay_step; [exact H1 | eapply replay_step; [exact H2 | constructor]]).
Qed.

Lemma writeNewAddresses_world toWrite conf w path e1 r e2 :
  handle (GetTimedFilePath (GetPingResultDirPath conf)) (w_env w) (w_heap w)
    = (path, e1) ->
  handle (WriteIPsToHexFile path toWrite) e1 (w_heap w) = (r, e2) ->
  exists w',
    writeNewAddresses toWrite conf w = (Ok r, w')
    /\ effects w
         [Ev (GetTimedFilePath (GetPingResultDirPath conf)) path;
          Ev (WriteIPsToHexFile path toWrite) r] w'.
Proof.
  intros H1 H2. unfold writeNewAddresses, bind.
  erewrite invoke_answer by exact H1. cbn [Printf w_heap w_env w_trace w_log].
  erewrite invoke_answer by exact H2.
  destruct r as [err|]; cbn [Printf ret w_heap w_env w_trace w_log app];
    (eexists; split; [reflexivity|]);
    (split; [reflexivity|]; split; [cbn [w_trace]; by rewrite <- app_assoc|]);
    (eapply replay_step; [exact H1 | eapply replay_step; [exact H2 | constructor]]).
Qed.

Lemma updateState_world conf w r e :
  handle (SetStateFile (GetStateFilePath conf) NETWORK_GROUP) (w_env w) (w_heap w)
    = (r, e) ->
  exists w',
    updateState conf w = (Ok r, w')
    /\ effects w [Ev (SetStateFile (GetStateFilePath conf) NETWORK_GROUP) r] w'.
Proof.
  intros H. unfold updateState, bind. erewrite invoke_answer by exact H.
  destruct r as [err|]; cbn [Printf ret w_heap w_env w_trace w_log];
    (eexists; split; [reflexivity|]); apply (effects_made w);
    (eapply replay_step; [exact H | constructor]).
Qed.

Lemma quiet_events_filter g :
  quiet_events g -> List.filter is_mutation (map call_of g) = [].
Proof.
  induction 1 as [|ev g Hev _ IH]; [done|]. simpl. unfold harmless in Hev.
  by rewrite Hev.
Qed.

(** X3. When the gates are passed, the reset succeeds and saving the blank
    model fails, [PrepareFromInputFile] returns the error of the save: the
    workspace has been emptied, and the addresses are not written and the
    state file is not set - the failed [Save] is the last call. *)
Theorem PrepareFromInputFile_bootstrap_failure
    (inputFilePath fileType : string) (conf : Configuration)
    (w wg wa wb : World) (addrs : list ptr) (e : error) :
  gates_passed inputFilePath fileType conf w addrs wg ->
  cleanUpWorkingDirectories conf wg = (Ok None, wa) ->
  createBlankModel inputFilePath conf wa = (Ok (Some e), wb) ->
  PrepareFromInputFile inputFilePath fileType conf w = (Ok (Some e), wb)
  /\ exists g n path,
       effects w
         (g ++ [Ev (DeleteAllFilesInDirectory (BaseOutputDirectory conf)) (n, None);
                Ev (GetTimedFilePath (GetGeneratedModelDirPath conf)) path;
                Ev (Save (NewAddressModel (Sprintf "Model from %s" [AStr inputFilePath]))
                         path) (Some e)]) wb
       /\ quiet_events g.
Proof.
  intros Hg Ha Hb. split.
  - rewrite (PrepareFromInputFile_after_gates _ _ _ _ _ _ Hg).
    unfold bind at 1. rewrite Ha. unfold bind at 1. by rewrite Hb.
  - destruct (gates_passed_quiet _ _ _ _ _ _ Hg) as (g & Eg & Qg).
    destruct (handle (DeleteAllFilesInDirectory (BaseOutputDirectory conf))
                (w_env wg) (w_heap wg)) as [[n r1] e1] eqn:E1.
    destruct (cleanUpWorkingDirectories_world _ _ _ _ _ E1) as (wa' & Ha' & Ea).
    rewrite Ha in Ha'. injection Ha' as <- <-.
    destruct (handle (GetTimedFilePath (GetGeneratedModelDirPath conf))
                (w_env wa) (w_heap wa)) as [path e2] eqn:E2.
    destruct (handle (Save (NewAddressModel (Sprintf "Model from %s" [AStr inputFilePath])) path)
                e2 (w_heap wa)) as [r2 e3] eqn:E3.
    destruct (createBlankModel_world _ _ _ _ _ _ _ E2 E3) as (wb' & Hb' & Eb).
    rewrite Hb in Hb'. injection Hb' as <- <-.
    exists g, n, path. split; [| exact Qg].
    eapply effects_trans; [exact Eg|].
    apply (effects_trans _ [_] _ [_; _] _ Ea Eb).
Qed.

(** X4. In a run of [PrepareFromInputFile] that returns nil, the calls
    that change the workspace are four, in this order: the reset of the
    base directory, the save of the model named after the input file, the
    write of the addresses that passed the gates, and the state advance -
    each path a timed one the outside gave. *)
Theorem PrepareFromInputFile_nil_mutations
    (inputFilePath fileType : string) (conf : Configuration) (w : World) :
  fst (PrepareFromInputFile inputFilePath fileType conf w) = Ok None ->
  exists tr addrs wg modelPath pingPath,
    effects w tr (snd (PrepareFromInputFile inputFilePath fileType conf w))
    /\ gates_passed inputFilePath fileType conf w addrs wg
    /\ List.filter is_mutation (map call_of tr)
       = [DeleteAllFilesInDirectory (BaseOutputDirectory conf);
          Save (NewAddressModel (Sprintf "Model from %s" [AStr inputFilePath])) modelPath;
          WriteIPsToHexFile pingPath addrs;
          SetStateFile (GetStateFilePath conf) NETWORK_GROUP].
Proof.
  intros Hn.
  destruct (PrepareFromInputFile_nil_run _ _ _ _ Hn)
    as (addrs & wg & wa & wb & r & wc & wd & Hg & Ha & Hb & Hc & Hs & ->).
  destruct (gates_passed_quiet _ _ _ _ _ _ Hg) as (g & Eg & Qg).
  destruct (handle (DeleteAllFilesInDirectory (BaseOutputDirectory conf))
              (w_env wg) (w_heap wg)) as [[n r1] e1] eqn:E1.
  destruct (cleanUpWorkingDirectories_world _ _ _ _ _ E1) as (wa' & Ha' & Ea).
  rewrite Ha in Ha'. injection Ha' as <- <-.
  destruct (handle (GetTimedFilePath (GetGeneratedModelDirPath conf))
              (w_env wa) (w_heap wa)) as [modelPath e2] eqn:E2.
  destruct (handle (Save (NewAddressModel (Sprintf "Model from %s" [AStr inputFilePath]))
                      modelPath) e2 (w_heap wa)) as [r2 e3] eqn:E3.
  destruct (createBlankModel_world _ _ _ _ _ _ _ E2 E3) as (wb' & Hb' & Eb).
  rewrite Hb in Hb'. injection Hb' as <- <-.
  destruct (handle (GetTimedFilePath (GetPingResultDirPath conf))
              (w_env wb) (w_heap wb)) as [pingPath e4] eqn:E4.
  destruct (handle (WriteIPsToHexFile pingPath addrs) e4 (w_heap wb)) as [r3 e5] eqn:E5.
  destruct (writeNewAddresses_world _ _ _ _ _ _ _ E4 E5) as (wc' & Hc' & Ec).
  rewrite Hc in Hc'. injection Hc' as <- <-.
  destruct (handle (SetStateFile (GetStateFilePath conf) NETWORK_GROUP)
              (w_env wc) (w_heap wc)) as [r4 e6] eqn:E6.
  destruct (updateState_world _ _ _ _ E6) as (wd' & Hs' & Es).
  rewrite Hs in Hs'. injection Hs' as <- <-.
  eexists _, addrs, wg, modelPath, pingPath. cbn [snd]. split.
  - eapply effects_trans; [exact Eg|]. eapply effects_trans; [exact Ea|].
    eapply effects_trans; [exact Eb|]. eapply effects_trans; [exact Ec | exact Es].
  - split; [exact Hg|]. rewrite map_app, List.filter_app, quiet_events_filter by done.
    reflexivity.
Qed.

(** X5. What the entropy filter returns it returns again when run on its
    own output, and a list free of repeated byte values stays free of
    them: the filter can follow the deduplication, and be repeated,
    without harm. *)
Theorem filterOutHighEntropyIPs_idempotent (conf : Configuration)
    (ips : list ptr) (w : World) :
  InputEmitFreq conf <> 0 \/ ips = [] ->
  exists out w',
    filterOutHighEntropyIPs ips conf w = (Ok out, w')
    /\ fst (filterOutHighEntropyIPs out conf w') = Ok out
    /\ (NoDup (map (w_heap w) ips) -> NoDup (map (w_heap w) out)).
Proof.
  intros H. destruct (filterOutHighEntropyIPs_returns conf ips w H) as (w' & E & Hh & _).
  eexists _, w'. split; [exact E|]. split.
  - destruct (filterOutHighEntropyIPs_returns conf
                (List.filter (lowEntropy conf (w_heap w)) ips) w') as (w'' & -> & _).
    { destruct H as [H | ->]; [by left | by right]. }
    rewrite Hh. cbn [fst]. f_equal. apply List_filter_all.
    intros ip Hip. by apply filter_In in Hip as [_ ?].
  - intros Hnd.
    assert (Hs : sublist (map (w_heap w) (List.filter (lowEntropy conf (w_heap w)) ips))
                         (map (w_heap w) ips)).
    { apply (fmap_sublist (w_heap w)), sublist_List_filter. }
    exact (sublist_NoDup _ _ Hnd Hs).
Qed.

Lemma filterLoop_log conf total rest :
  InputEmitFreq conf <> 0 ->
  forall i acc w,
    w_log (snd (filterLoop conf total i rest acc w))
    = (w_log w
       ++ map (fun j => LogLine "Processing %d out of %d for high entropy IPs."
                          [LInt j; LInt total])
            (List.filter (fun j => Z.rem j (InputEmitFreq conf) =? 0)
               (seqZ i (len rest))))%list.
Proof.
  intros Hf. induction rest as [|ip rest IH]; intros i acc w.
  - simpl. by rewrite app_nil_r.
  - assert (Hlen : len (ip :: rest) = Z.succ (len rest)).
    { unfold len. simpl length. lia. }
    rewrite Hlen, seqZ_cons by (unfold len; lia). rewrite Z.pred_succ.
    cbn [filterLoop List.filter]. unfold bind at 1, go_rem.
    destruct (Z.eqb_spec (InputEmitFreq conf) 0) as [|_]; [done|]. cbn [ret].
    unfold bind at 1.
    destruct (Z.rem i (InputEmitFreq conf) =? 0); cbn [Printf ret];
      unfold bind at 1; cbn [deref];
      destruct (SFltb _ _); replace (i + 1) with (Z.succ i) by lia;
      rewrite IH; cbn [w_log map]; by rewrite <- ?app_assoc.
Qed.

(** X6. The log of the entropy filter: the opening line with the length,
    the threshold and the bit length; one progress line for each index
    that [InputEmitFreq] divides, in order; and the closing line with the
    number kept and the number removed, which is not negative. *)
Theorem filterOutHighEntropyIPs_log (conf : Configuration)
    (ips : list ptr) (w : World) :
  InputEmitFreq conf <> 0 \/ ips = [] ->
  exists out w',
    filterOutHighEntropyIPs ips conf w = (Ok out, w')
    /\ w_log w'
       = (w_log w
          ++ [LogLine "Now removing high entropy IP addresses from list of length %d (%f threshold, %d bits)."
                [LInt (len ips); LFloat (InputEntropyThreshold conf);
                 LInt (InputEntropyBitLength conf)]]
          ++ map (fun j => LogLine "Processing %d out of %d for high entropy IPs."
                             [LInt j; LInt (len ips)])
               (List.filter (fun j => Z.rem j (InputEmitFreq conf) =? 0)
                  (seqZ 0 (len ips)))
          ++ [LogLine "Resulting list is %d long (removed %d high entropy addresses)."
                [LInt (len out); LInt (len ips - len out)]])%list
    /\ 0 <= len ips - len out.
Proof.
  intros H. destruct (filterOutHighEntropyIPs_returns conf ips w H) as (w' & E & _).
  eexists _, w'. split; [exact E|]. split.
  - replace w' with (snd (filterOutHighEntropyIPs ips conf w)) by by rewrite E.
    unfold filterOutHighEntropyIPs, bind. cbn [Printf].
    destruct H as [Hf | ->].
    + match goal with |- context [filterLoop ?c ?t ?j ?r ?a ?w0] =>
        pose proof (filterLoop_log c t r Hf j a w0) as Hl;
        destruct (filterLoop_returns c t r Hf j a w0) as (w1 & E1 & _) end.
      rewrite E1 in Hl |- *. cbn [snd w_log app ret] in *. rewrite Hl.
      by rewrite <- !app_assoc.
    + cbn. by rewrite <- !app_assoc.
  - pose proof (sublist_length _ _ (sublist_List_filter (lowEntropy conf (w_heap w)) ips)).
    unfold len. lia.
Qed.

(** X7. When the operator declines the clean-up, [PrepareFromInputFile]
    returns the error of the prompt and has done nothing else: the prompt
    is its only call - the input file is not read - and nothing is
    logged. *)
Theorem PrepareFromInputFile_cleanup_declined
    (inputFilePath fileType : string) (conf : Configuration) (w : World)
    (e : error) (env' : Env) :
  handle (PromptForApproval (cleanUpPrompt inputFilePath) (cleanUpErrMsg conf))
         (w_env w) (w_heap w) = (Some e, env') ->
  PrepareFromInputFile inputFilePath fileType conf w
  = (Ok (Some e),
     mkWorld (w_heap w) (w_log w)
       (w_trace w ++ [Ev (PromptForApproval (cleanUpPrompt inputFilePath)
                            (cleanUpErrMsg conf)) (Some e)])
       env').
Proof.
  intros H. unfold PrepareFromInputFile. unfold bind at 1.
  rewrite confirmCleanUpExisting_run. by erewrite invoke_answer by exact H.
Qed.

(** X8. A file type other than "bin" - "hex", "text" or anything else - is
    read with the hex reader: from any world [getIPsFromFile] makes that
    one call and returns what it gave after logging one line, the count
    read or the error - no warning, whether the read succeeds or fails.
    When the clean-up is approved and the read fails,
    [PrepareFromInputFile] logs the one error line and returns the error;
    the prompt and the read are its only calls. *)
Theorem PrepareFromInputFile_read_failure
    (inputFilePath fileType : string) (conf : Configuration) :
  fileType <> "bin" ->
  let line (ips : list ptr) (err : option error) :=
    match err with
    | Some e =>
        LogLine "Error thrown when reading addresses from file '%s': %e"
          [LStr inputFilePath; LErr e]
    | None =>
        LogLine "Successfully read %d addresses from %s file at '%s'."
          [LInt (len ips); LStr fileType; LStr inputFilePath]
    end in
  (forall (w : World) (ips : list ptr) (err : option error) (e' : Env),
     handle (ReadIPsFromHexFile inputFilePath) (w_env w) (w_heap w)
     = ((ips, err), e') ->
     getIPsFromFile inputFilePath fileType w
     = (Ok (ips, err),
        mkWorld (w_heap w) (w_log w ++ [line ips err])
          (w_trace w ++ [Ev (ReadIPsFromHexFile inputFilePath) (ips, err)]) e'))
  /\ (forall (w : World) (e1 e2 : Env) (ips : list ptr) (e : error),
        handle (PromptForApproval (cleanUpPrompt inputFilePath) (cleanUpErrMsg conf))
               (w_env w) (w_heap w) = (None, e1) ->
        handle (ReadIPsFromHexFile inputFilePath) e1 (w_heap w)
        = ((ips, Some e), e2) ->
        PrepareFromInputFile inputFilePath fileType conf w
        = (Ok (Some e),
           mkWorld (w_heap w) (w_log w ++ [line ips (Some e)])
             (w_trace w
              ++ [Ev (PromptForApproval (cleanUpPrompt inputFilePath)
                        (cleanUpErrMsg conf)) None;
                  Ev (ReadIPsFromHexFile inputFilePath) (ips, Some e)]) e2)).
Proof.
  intros Hft line.
  assert (Hget : forall (w : World) ips err e',
             handle (ReadIPsFromHexFile inputFilePath) (w_env w) (w_heap w)
             = ((ips, err), e') ->
             getIPsFromFile inputFilePath fileType w
             = (Ok (ips, err),
                mkWorld (w_heap w) (w_log w ++ [line ips err])
                  (w_trace w ++ [Ev (ReadIPsFromHexFile inputFilePath) (ips, err)]) e')).
  { intros w ips err e' Hr. unfold getIPsFromFile. unfold bind at 1.
    apply String.eqb_neq in Hft. rewrite Hft.
    erewrite invoke_answer by exact Hr.
    cbn [w_heap w_log w_trace w_env]. unfold bind.
    by destruct err as [e|]. }
  split; [exact Hget|].
  intros w e1 e2 ips e Hp Hr. unfold PrepareFromInputFile. unfold bind at 1.
  rewrite confirmCleanUpExisting_run. erewrite invoke_answer by exact Hp.
  unfold bind at 1. rewrite (Hget _ ips (Some e) e2) by exact Hr.
  cbn [w_heap w_log w_trace w_env]. by rewrite <- app_assoc.
Qed.

Lemma effects_from_logs_only w0 w tr w' :
  logs_only w0 w -> effects w tr w' -> effects w0 tr w'.
Proof. intros (Hh & Ht & He) (? & ? & ?). repeat split; congruence. Qed.

Lemma write_phase_run conf file pings w :
  exists trw wb,
    (if negb (String.eqb (OutputFileType conf) "bin")
     then (if negb (String.eqb (OutputFileType conf) "text")
           then Printf unexpectedFormat [LStr (OutputFileType conf)]
           else ret tt) ;;; writeTextLoop file pings
     else writeBinLoop file pings) w = (Ok tt, wb)
    /\ effects w trw wb
    /\ map call_of trw
       = (if String.eqb (OutputFileType conf) "bin"
          then map (fun a => Write file (w_heap w a)) pings
          else map (fun a => WriteString file
                               (IPString (w_heap w a) ++ String "010" EmptyString)) pings).
Proof.
  destruct (String.eqb (OutputFileType conf) "bin"); cbn [negb].
  - destruct (writeBinLoop_run file pings w) as (trw & wb & -> & E & _ & Hc). eauto.
  - unfold bind at 1.
    destruct (String.eqb (OutputFileType conf) "text"); cbn [negb Printf ret].
    + destruct (writeTextLoop_run file pings w) as (trw & wb & -> & E & _ & Hc). eauto.
    + match goal with |- context [writeTextLoop _ _ ?w0] =>
        destruct (writeTextLoop_run file pings w0) as (trw & wb & -> & E & _ & Hc) end.
      exists trw, wb. split; [done|]. split; [| exact Hc].
      eapply effects_from_logs_only; [| exact E]. by repeat split.
Qed.

(** X9. The calls of [updateAddressFile], in order.  When reading the
    clean ping results fails, that read is the only call: no file is
    opened or created.  When opening fails, nothing follows the open: no
    write, no flush, no close.  Otherwise: the read, the open, the start
    time, one data write per address, then a single flush, the time since
    the start, the timer update with it, and the close of the file as the
    last call. *)
Theorem updateAddressFile_calls (conf : Configuration) (w : World) :
  let readc := GetCleanPingResults (GetCleanPingDirPath conf) in
  let openc := OpenFile (GetOutputFilePath conf)
                 (Z.lor (Z.lor O_APPEND O_WRONLY) O_CREATE) perm0644 in
  let rd := handle readc (w_env w) (w_heap w) in
  let op := handle openc (snd rd) (w_heap w) in
  let pings := fst (fst rd) in
  let file := fst (fst op) in
  exists tr start elapsed,
    effects w tr (snd (updateAddressFile conf w))
    /\ map call_of tr
       = match snd (fst rd) with
         | Some _ => [readc]
         | None =>
             match snd (fst op) with
             | Some _ => [readc; openc]
             | None =>
                 ([readc; openc; Now]
                  ++ (if String.eqb (OutputFileType conf) "bin"
                      then map (fun a => Write file (w_heap w a)) pings
                      else map (fun a => WriteString file
                                           (IPString (w_heap w a)
                                            ++ String "010" EmptyString)) pings)
                  ++ [Flush file; Since start; Update elapsed; Close file])%list
             end
         end.
Proof.
  intros readc openc rd op pings file.
  destruct rd as [[pings' r1] e1] eqn:Hrd. subst pings. cbn [fst snd] in *.
  unfold updateAddressFile. unfold bind at 1. erewrite invoke_answer by exact Hrd.
  destruct r1 as [e|].
  { cbn [ret snd]. exists [Ev readc (pings', Some e)].
    destruct (handle Now e1 (w_heap w)) as [start _].
    destruct (handle (Since start) e1 (w_heap w)) as [elapsed _].
    exists start, elapsed. split; [| done]. apply (effects_made w).
    eapply replay_step; [exact Hrd | constructor]. }
  unfold bind at 1. cbn [Printf]. unfold bind at 1.
  destruct op as [[file' r2] e2] eqn:Hop. subst file. cbn [fst snd] in *.
  erewrite invoke_answer by exact Hop. cbn [w_heap w_log w_trace w_env].
  destruct r2 as [e|].
  { cbn [ret snd]. exists [Ev readc (pings', None); Ev openc (file', Some e)].
    destruct (handle Now e2 (w_heap w)) as [start _].
    destruct (handle (Since start) e2 (w_heap w)) as [elapsed _].
    exists start, elapsed. split; [| done].
    split; [done|]. split; [cbn [w_trace]; by rewrite <- app_assoc|].
    eapply replay_step; [exact Hrd | eapply replay_step; [exact Hop | constructor]]. }
  unfold bind at 1.
  destruct (handle Now e2 (w_heap w)) as [start e3] eqn:Hnow.
  erewrite invoke_answer by exact Hnow. cbn [w_heap w_log w_trace w_env].
  unfold bind at 1. unfold NewWriter.
  match goal with |- context [(if negb _ then _ else _) ?w0] => set (wa := w0) end.
  assert (Ea : effects w [Ev readc (pings', None); Ev openc (file', None); Ev Now start] wa).
  { split; [done|]. split; [subst wa; cbn [w_trace]; by rewrite <- !app_assoc|].
    eapply replay_step; [exact Hrd|]. eapply replay_step; [exact Hop|].
    eapply replay_step; [exact Hnow | constructor]. }
  destruct (write_phase_run conf file' pings' wa) as (trw & wb & -> & Eb & Hcalls).
  destruct (handle (Flush file') (w_env wb) (w_heap wb)) as [r3 e4] eqn:Hfl.
  unfold bind at 1. erewrite invoke_answer by exact Hfl.
  destruct (handle (Since start) e4 (w_heap wb)) as [elapsed e5] eqn:Hsi.
  unfold bind at 1. erewrite invoke_answer by exact Hsi. cbn [w_heap w_log w_trace w_env].
  destruct (handle (Update elapsed) e5 (w_heap wb)) as [u e6] eqn:Hup.
  unfold bind at 1. erewrite invoke_answer by exact Hup. cbn [w_heap w_log w_trace w_env].
  unfold bind at 1. cbn [Printf]. unfold bind at 1.
  destruct (handle (Close file') e6 (w_heap wb)) as [r4 e7] eqn:Hcl.
  erewrite invoke_answer by exact Hcl. cbn [ret snd w_heap w_log w_trace w_env].
  eexists _, start, elapsed. split.
  - eapply effects_trans; [exact Ea|]. eapply effects_trans; [exact Eb|].
    split; [done|]. split; [cbn [w_trace]; by rewrite <- !app_assoc|].
    cbn [w_env]. eapply replay_step; [exact Hfl|]. eapply replay_step; [exact Hsi|].
    eapply replay_step; [exact Hup|]. eapply replay_step; [exact Hcl | constructor].
  - rewrite !map_app, Hcalls. subst wa. reflexivity.
Qed.
End Runs.

(** ** Facts about package [fs] *)
Module FsFacts.
Import Fs.

Section Facts.
Context `{T : Types} {Hd : Handler}.

Lemma fs_replay_app e1 tr1 e2 tr2 e3 :
  replay e1 tr1 e2 -> replay e2 tr2 e3 -> replay e1 (tr1 ++ tr2) e3.
Proof. induction 1; simpl; [done|]. intros. constructor. auto. Qed.

Lemma fs_replay_step e c r e' tr e'' :
  handle c e = (r, e') -> replay e' tr e'' -> replay e (Ev c r :: tr) e''.
Proof.
  intros H Hr. pose proof (replay_call e c tr e'') as Hc.
  rewrite H in Hc. by apply Hc.
Qed.

Lemma fs_effects_refl w : effects w [] w.
Proof. split; [by rewrite app_nil_r | constructor]. Qed.

Lemma fs_effects_trans w1 tr1 w2 tr2 w3 :
  effects w1 tr1 w2 -> effects w2 tr2 w3 -> effects w1 (tr1 ++ tr2) w3.
Proof.
  intros (Ht1 & Hr1) (Ht2 & Hr2). split.
  - by rewrite Ht2, Ht1, app_assoc.
  - eapply fs_replay_app; eauto.
Qed.

Lemma fs_invoke_answer c w r e :
  handle c (w_env w) = (r, e) ->
  invoke c w = (r, mkWorld (w_log w) (w_trace w ++ [Ev c r]) e).
Proof. intros H. unfold invoke. by rewrite H. Qed.

Lemma fs_effects_invoke c w r e lg :
  handle c (w_env w) = (r, e) ->
  effects w [Ev c r] (mkWorld lg (w_trace w ++ [Ev c r]) e).
Proof. intros H. split; [done|]. eapply fs_replay_step; [exact H | constructor]. Qed.

(** *** [GetMostRecentFileFromDirectory] *)

Lemma mostRecentLoop_choice files :
  forall newestFile newestTime,
    ((forall fi, In fi files -> IsRegular fi = true -> Unix fi <= newestTime)
     /\ mostRecentLoop files newestFile newestTime = newestFile)
    \/ exists pre fj post,
         files = (pre ++ fj :: post)%list
         /\ IsRegular fj = true /\ newestTime < Unix fj
         /\ mostRecentLoop files newestFile newestTime = Name fj
         /\ (forall fi, In fi pre -> IsRegular fi = true -> Unix fi < Unix fj)
         /\ (forall fi, In fi post -> IsRegular fi = true -> Unix fi <= Unix fj).
Proof.
  induction files as [|fi rest IH]; intros nf nt; simpl.
  - left. split; [intros ? [] | done].
  - destruct (IsRegular fi) eqn:Hreg.
    + destruct (Z.gtb_spec (Unix fi) nt) as [Hgt|Hle].
      * destruct (IH (Name fi) (Unix fi))
          as [[Hall ->] | (pre & fj & post & -> & Hr & Hlt & -> & Hpre & Hpost)].
        -- right. exists [], fi, rest.
           split; [done|]. split; [done|]. split; [lia|]. split; [done|].
           split; [intros ? [] | exact Hall].
        -- right. exists (fi :: pre), fj, post.
           split; [done|]. split; [done|]. split; [lia|]. split; [done|].
           split; [| exact Hpost].
           intros f [<- | Hin] Hf; [lia | by apply Hpre].
      * destruct (IH nf nt)
          as [[Hall ->] | (pre & fj & post & -> & Hr & Hlt & -> & Hpre & Hpost)].
        -- left. split; [| done]. intros f [<- | Hin] Hf; [lia | by apply Hall].
        -- right. exists (fi :: pre), fj, post.
           split; [done|]. split; [done|]. split; [lia|]. split; [done|].
           split; [| exact Hpost].
           intros f [<- | Hin] Hf; [lia | by apply Hpre].
    + destruct (IH nf nt)
        as [[Hall ->] | (pre & fj & post & -> & Hr & Hlt & -> & Hpre & Hpost)].
      * left. split; [| done]. intros f [<- | Hin] Hf; [congruence | by apply Hall].
      * right. exists (fi :: pre), fj, post.
        split; [done|]. split; [done|]. split; [lia|]. split; [done|].
        split; [| exact Hpost].
        intros f [<- | Hin] Hf; [congruence | by apply Hpre].
Qed.

Lemma GetMostRecentFileFromDirectory_listed dirPath w files e :
  handle (ReadDir dirPath) (w_env w) = ((files, None), e) ->
  GetMostRecentFileFromDirectory dirPath w
  = ((mostRecentLoop files "" 0, None),
     mkWorld (w_log w) (w_trace w ++ [Ev (ReadDir dirPath) (files, None)]) e).
Proof.
  intros H. unfold GetMostRecentFileFromDirectory, bind.
  by erewrite fs_invoke_answer by exact H.
Qed.

(** X10. When the directory is listed, [GetMostRecentFileFromDirectory]
    returns the name of the first entry, among the regular files dated
    after the epoch, with the latest modification time: every regular file
    before it in the listing is strictly older, every one after it is not
    newer.  It returns the empty name when no regular file is dated after
    the epoch - directories and other entries do not count, however
    recent. *)
Theorem GetMostRecentFileFromDirectory_newest (dirPath : string) (w : World)
    (files : list FileInfo) (e : Env) :
  handle (ReadDir dirPath) (w_env w) = ((files, None), e) ->
  exists recent,
    fst (GetMostRecentFileFromDirectory dirPath w) = (recent, None)
    /\ (((forall fi, In fi files -> IsRegular fi = true -> Unix fi <= 0)
         /\ recent = "")
        \/ exists pre fj post,
             files = (pre ++ fj :: post)%list
             /\ IsRegular fj = true /\ 0 < Unix fj /\ recent = Name fj
             /\ (forall fi, In fi pre -> IsRegular fi = true -> Unix fi < Unix fj)
             /\ (forall fi, In fi post -> IsRegular fi = true -> Unix fi <= Unix fj)).
Proof.
  intros H. rewrite (GetMostRecentFileFromDirectory_listed _ _ _ _ H).
  eexists. split; [reflexivity|].
  destruct (mostRecentLoop_choice files "" 0)
    as [[Hall ->] | (pre & fj & post & -> & Hr & Hlt & -> & Hpre & Hpost)].
  - by left.
  - right. exists pre, fj, post. by repeat split.
Qed.

(** *** [GetNonMostRecentFilesFromDirectory] *)

Lemma otherNamesLoop_filter files recent :
  forall acc,
    otherNamesLoop files recent acc
    = (acc ++ List.filter (fun n => negb (String.eqb n recent)) (map Name files))%list.
Proof.
  induction files as [|fi rest IH]; intros acc; simpl.
  - by rewrite app_nil_r.
  - destruct (negb (String.eqb (Name fi) recent)); rewrite IH; [| done].
    by rewrite <- app_assoc.
Qed.

Lemma filter_out_one (l : list string) (x : string) :
  NoDup l -> x ∈ l ->
  (length (List.filter (fun n => negb (String.eqb n x)) l) + 1 = length l)%nat.
Proof.
  induction 1 as [|y l Hy Hnd IH]; [by intros ?%not_elem_of_nil|].
  intros [-> | Hin]%elem_of_cons; simpl.
  - rewrite String.eqb_refl. simpl. rewrite List_filter_all; [lia|].
    intros z Hz. apply negb_true_iff, String.eqb_neq. intros ->.
    by apply Hy, list_elem_of_In.
  - destruct (String.eqb_spec y x) as [-> | _]; [done|]. simpl.
    rewrite <- (IH Hin). lia.
Qed.

(** X11. With a most recent file [recent] found, and the directory listed
    a second time, [GetNonMostRecentFilesFromDirectory] returns the names
    of that second listing other than [recent], in order - of every entry,
    directories included, not of the regular files only.  [recent] is not
    among them; when the two listings are the same and no name repeats,
    they are all the entries but one. *)
Theorem GetNonMostRecentFilesFromDirectory_others (dirPath : string)
    (w : World) (files1 files2 : list FileInfo) (e1 e2 : Env) (recent : string) :
  handle (ReadDir dirPath) (w_env w) = ((files1, None), e1) ->
  fst (GetMostRecentFileFromDirectory dirPath w) = (recent, None) ->
  recent <> "" ->
  handle (ReadDir dirPath) e1 = ((files2, None), e2) ->
  exists names,
    fst (GetNonMostRecentFilesFromDirectory dirPath w) = (names, None)
    /\ names = List.filter (fun n => negb (String.eqb n recent)) (map Name files2)
    /\ ~ In recent names
    /\ (forall fi, In fi files2 -> Name fi <> recent -> In (Name fi) names)
    /\ (files2 = files1 -> NoDup (map Name files1) ->
        (length names + 1 = length files1)%nat).
Proof.
  intros H1 Hrec Hne H2.
  rewrite (GetMostRecentFileFromDirectory_listed _ _ _ _ H1) in Hrec.
  cbn [fst] in Hrec. injection Hrec as Hrec.
  unfold GetNonMostRecentFilesFromDirectory. unfold bind at 1.
  rewrite (GetMostRecentFileFromDirectory_listed _ _ _ _ H1), Hrec.
  apply String.eqb_neq in Hne. rewrite Hne. cbn [orb].
  unfold bind at 1. cbn [Printf]. unfold bind at 1.
  erewrite fs_invoke_answer by exact H2. unfold bind. cbn [Printf ret fst].
  rewrite otherNamesLoop_filter. cbn [app].
  eexists. split; [reflexivity|]. split; [reflexivity|]. split; [| split].
  - intros [_ Hin]%filter_In. by rewrite String.eqb_refl in Hin.
  - intros fi Hin Hn. apply filter_In. split; [by apply in_map|].
    by apply negb_true_iff, String.eqb_neq.
  - intros -> Hnd. rewrite <- (length_map Name files1). apply filter_out_one; [done|].
    destruct (mostRecentLoop_choice files1 "" 0)
      as [[_ Hr] | (pre & fj & post & -> & _ & _ & Hr & _)].
    + rewrite Hr in Hrec. subst recent. by rewrite String.eqb_refl in Hne.
    + rewrite Hr in Hrec. subst recent. apply list_elem_of_In, in_map, in_elt.
Qed.

(** X12. When no regular file of the directory is dated after the epoch -
    it is empty, or holds directories or epoch-dated files only -
    [GetNonMostRecentFilesFromDirectory] returns no name and no error,
    whatever the directory holds, after listing it once and logging
    nothing. *)
Theorem GetNonMostRecentFilesFromDirectory_none (dirPath : string)
    (w : World) (files : list FileInfo) (e : Env) :
  handle (ReadDir dirPath) (w_env w) = ((files, None), e) ->
  (forall fi, In fi files -> IsRegular fi = true -> Unix fi <= 0) ->
  GetNonMostRecentFilesFromDirectory dirPath w
  = (([], None),
     mkWorld (w_log w) (w_trace w ++ [Ev (ReadDir dirPath) (files, None)]) e).
Proof.
  intros H Hall. unfold GetNonMostRecentFilesFromDirectory. unfold bind at 1.
  rewrite (GetMostRecentFileFromDirectory_listed _ _ _ _ H).
  destruct (mostRecentLoop_choice files "" 0)
    as [[_ ->] | (pre & fj & post & -> & Hr & Hlt & _)].
  - reflexivity.
  - specialize (Hall fj (in_elt _ _ _) Hr). lia.
Qed.

(** *** [ZipFiles] *)

Lemma zipLoop_run outputPath z inputPaths :
  forall w res w',
    zipLoop inputPaths outputPath z w = (res, w') ->
    exists body,
      effects w body w'
      /\ closed body = opened body
      /\ tried body `prefix_of` inputPaths
      /\ (res = None ->
          tried body = inputPaths /\ length (opened body) = length inputPaths)
      /\ Forall (fun ev => input_call (call_of ev)) body.
Proof.
  induction inputPaths as [|p rest IH]; intros w res w'; simpl.
  - intros [= <- <-]. exists []. split; [apply fs_effects_refl|]. by repeat split.
  - unfold bind at 1. cbn [Printf]. unfold bind at 1.
    destruct (handle (Open p) (w_env w)) as [[f r1] e1] eqn:Ho.
    erewrite fs_invoke_answer by exact Ho. cbn [w_log w_trace w_env].
    destruct r1 as [e|].
    { unfold bind. cbn [Printf ret w_log w_trace w_env]. intros [= <- <-].
      exists [Ev (Open p) (f, Some e)].
      split; [by eapply fs_effects_invoke|]. split; [reflexivity|].
      split; [by exists rest|]. split; [intros [=]|].
      repeat first [exact I | constructor]. }
    unfold bind at 1.
    destruct (handle (Copy z f) e1) as [[n r2] e2] eqn:Hc.
    erewrite fs_invoke_answer by exact Hc. cbn [w_log w_trace w_env].
    destruct (handle (Close f) e2) as [r3 e3] eqn:Hcl.
    destruct r2 as [e|].
    { unfold bind at 1. cbn [Printf]. unfold bind at 1.
      erewrite fs_invoke_answer by exact Hcl. cbn [ret w_log w_trace w_env].
      intros [= <- <-].
      exists [Ev (Open p) (f, None); Ev (Copy z f) (n, Some e); Ev (Close f) r3].
      split.
      - split; [cbn [w_trace]; by rewrite <- !app_assoc|].
        eapply fs_replay_step; [exact Ho|]. eapply fs_replay_step; [exact Hc|].
        eapply fs_replay_step; [exact Hcl | constructor].
      - split; [reflexivity|]. split; [by exists rest|]. split; [intros [=]|].
        repeat first [exact I | constructor]. }
    unfold bind at 1. cbn [Printf]. unfold bind at 1.
    erewrite fs_invoke_answer by exact Hcl. cbn [w_log w_trace w_env].
    intros Hrest. destruct (IH _ _ _ Hrest) as (body & Eb & Hoc & Hpre & Hnil & Hin).
    exists ([Ev (Open p) (f, None); Ev (Copy z f) (n, None); Ev (Close f) r3] ++ body)%list.
    split.
    + eapply fs_effects_trans; [| exact Eb].
      split; [cbn [w_trace]; by rewrite <- !app_assoc|].
      eapply fs_replay_step; [exact Ho|]. eapply fs_replay_step; [exact Hc|].
      eapply fs_replay_step; [exact Hcl | constructor].
    + split; [simpl; by rewrite Hoc|]. split; [simpl; by apply prefix_cons|].
      split.
      * intros Hn. destruct (Hnil Hn) as [Ht Hlen]. simpl. by rewrite Ht, Hlen.
      * repeat first [exact I | assumption | constructor].
Qed.

Lemma ZipFiles_run inputPaths outputPath w outFile e1 res w' :
  handle (Create outputPath) (w_env w) = ((outFile, None), e1) ->
  ZipFiles inputPaths outputPath w = (res, w') ->
  exists body r1 r2,
    effects w
      ([Ev (Create outputPath) (outFile, None)] ++ body
       ++ [Ev (CloseWriter (NewWriter outFile)) r1; Ev (Close outFile) r2]) w'
    /\ closed body = opened body
    /\ tried body `prefix_of` inputPaths
    /\ (res = None ->
        tried body = inputPaths /\ length (opened body) = length inputPaths)
    /\ Forall (fun ev => input_call (call_of ev)) body.
Proof.
  intros Hcr. unfold ZipFiles. unfold bind at 1. cbn [Printf]. unfold bind at 1.
  erewrite fs_invoke_answer by exact Hcr. cbn [w_log w_trace w_env].
  unfold bind at 1.
  match goal with |- context [zipLoop _ _ _ ?w0] =>
    destruct (zipLoop inputPaths outputPath (NewWriter outFile) w0) as [res0 wb] eqn:Hz;
    destruct (zipLoop_run _ _ _ _ _ _ Hz) as (body & Eb & Hoc & Hpre & Hnil & Hin);
    set (wa := w0) in * end.
  assert (Ea : effects w [Ev (Create outputPath) (outFile, None)] wa).
  { by eapply fs_effects_invoke. }
  assert (exists wc, (match res0 with
                      | None => Printf "Successfully added %d files (at %s) into output zip file at path '%s'."
                                  [LInt (len inputPaths); LStrs inputPaths; LStr outputPath]
                      | Some _ => ret tt
                      end) wb = (tt, wc)
                     /\ w_trace wc = w_trace wb /\ w_env wc = w_env wb) as (wc & Hlog & Htc & Hec).
  { destruct res0; cbn [Printf ret]; eauto. }
  unfold bind at 1. rewrite Hlog. unfold bind at 1.
  destruct (handle (CloseWriter (NewWriter outFile)) (w_env wc)) as [r1 e2] eqn:H1.
  erewrite fs_invoke_answer by exact H1. unfold bind at 1.
  destruct (handle (Close outFile) e2) as [r2 e3] eqn:H2.
  erewrite fs_invoke_answer by exact H2. cbn [ret w_log w_trace w_env].
  intros [= <- <-]. exists body, r1, r2. split; [| done].
  eapply fs_effects_trans; [exact Ea|]. eapply fs_effects_trans; [exact Eb|].
  split; [cbn [w_trace]; by rewrite Htc, <- !app_assoc|].
  cbn [w_env]. rewrite <- Hec.
  eapply fs_replay_step; [exact H1|]. eapply fs_replay_step; [exact H2 | constructor].
Qed.

Lemma ZipFiles_create_failed inputPaths outputPath w outFile e e1 :
  handle (Create outputPath) (w_env w) = ((outFile, Some e), e1) ->
  exists lg,
    ZipFiles inputPaths outputPath w
    = (Some e, mkWorld lg (w_trace w ++ [Ev (Create outputPath) (outFile, Some e)]) e1).
Proof.
  intros Hcr. unfold ZipFiles. unfold bind at 1. cbn [Printf]. unfold bind at 1.
  erewrite fs_invoke_answer by exact Hcr.
  unfold bind. cbn [Printf ret w_log w_trace w_env]. eauto.
Qed.

(** X13. Once the output file is created, [ZipFiles] ends, whatever
    fails, by closing the compressing writer and then the output file,
    its last two calls in that order.  Between the creation and these, it
    only opens, copies and closes input files, and it closes every input
    file it opened, in the order it opened them. *)
Theorem ZipFiles_closes_what_it_opens (inputPaths : list string)
    (outputPath : string) (w : World) (outFile : File) (e1 : Env) :
  handle (Create outputPath) (w_env w) = ((outFile, None), e1) ->
  exists body r1 r2,
    effects w
      ([Ev (Create outputPath) (outFile, None)] ++ body
       ++ [Ev (CloseWriter (NewWriter outFile)) r1; Ev (Close outFile) r2])
      (snd (ZipFiles inputPaths outputPath w))
    /\ Forall (fun ev => input_call (call_of ev)) body
    /\ closed body = opened body.
Proof.
  intros Hcr. destruct (ZipFiles inputPaths outputPath w) as [res w'] eqn:Hrun.
  destruct (ZipFiles_run _ _ _ _ _ _ _ Hcr Hrun)
    as (body & r1 & r2 & E & Hoc & _ & _ & Hin).
  exists body, r1, r2. split; [exact E|]. by split.
Qed.

(** The loop of [ZipFiles] ends at the first open or copy that fails:
    when it gives nil nothing failed, and when it gives an error its calls
    are calls that did not fail and then the failure with that error. *)
Lemma zipLoop_stops outputPath z inputPaths :
  forall w res w',
    zipLoop inputPaths outputPath z w = (res, w') ->
    exists body,
      w_trace w' = (w_trace w ++ body)%list
      /\ match res with
         | None => Forall unfailed body
         | Some e =>
             exists pre stop,
               body = (pre ++ stop)%list /\ Forall unfailed pre /\ stops_with z e stop
         end.
Proof.
  induction inputPaths as [|p rest IH]; intros w res w'; simpl.
  - intros [= <- <-]. exists []. split; [by rewrite app_nil_r | constructor].
  - unfold bind at 1. cbn [Printf]. unfold bind at 1.
    destruct (handle (Open p) (w_env w)) as [[f r1] e1] eqn:Ho.
    erewrite fs_invoke_answer by exact Ho. cbn [w_log w_trace w_env].
    destruct r1 as [e|].
    { unfold bind. cbn [Printf ret w_log w_trace w_env]. intros [= <- <-].
      exists [Ev (Open p) (f, Some e)]. split; [reflexivity|].
      exists [], [Ev (Open p) (f, Some e)]. split; [reflexivity|].
      split; [constructor|]. left. by exists p, f. }
    unfold bind at 1.
    destruct (handle (Copy z f) e1) as [[n r2] e2] eqn:Hc.
    erewrite fs_invoke_answer by exact Hc. cbn [w_log w_trace w_env].
    destruct (handle (Close f) e2) as [r3 e3] eqn:Hcl.
    destruct r2 as [e|].
    { unfold bind at 1. cbn [Printf]. unfold bind at 1.
      erewrite fs_invoke_answer by exact Hcl. cbn [ret w_log w_trace w_env].
      intros [= <- <-].
      exists [Ev (Open p) (f, None); Ev (Copy z f) (n, Some e); Ev (Close f) r3].
      split; [cbn [w_trace]; by rewrite <- !app_assoc|].
      exists [], [Ev (Open p) (f, None); Ev (Copy z f) (n, Some e); Ev (Close f) r3].
      split; [reflexivity|]. split; [constructor|]. right. by exists p, f, n, r3. }
    unfold bind at 1. cbn [Printf]. unfold bind at 1.
    erewrite fs_invoke_answer by exact Hcl. cbn [w_log w_trace w_env].
    intros Hrest. destruct (IH _ _ _ Hrest) as (body & Etr & Hres).
    cbn [w_trace] in Etr.
    assert (Hok : Forall unfailed
                    [Ev (Open p) (f, None); Ev (Copy z f) (n, None); Ev (Close f) r3]).
    { repeat first [exact I | constructor]. }
    exists ([Ev (Open p) (f, None); Ev (Copy z f) (n, None); Ev (Close f) r3] ++ body)%list.
    split; [rewrite Etr; by rewrite <- !app_assoc|].
    destruct res as [e|].
    + destruct Hres as (pre & stop & -> & Hpre & Hstop).
      exists ([Ev (Open p) (f, None); Ev (Copy z f) (n, None); Ev (Close f) r3] ++ pre)%list,
             stop.
      split; [by rewrite <- app_assoc|]. split; [| exact Hstop].
      apply Forall_app. by split.
    + apply Forall_app. by split.
Qed.

(** The same of [ZipFiles], between the creation of the output file and
    the two deferred closes. *)
Lemma ZipFiles_stops inputPaths outputPath w outFile e1 res w' :
  handle (Create outputPath) (w_env w) = ((outFile, None), e1) ->
  ZipFiles inputPaths outputPath w = (res, w') ->
  forall body r1 r2,
    w_trace w'
    = (w_trace w
       ++ [Ev (Create outputPath) (outFile, None)] ++ body
       ++ [Ev (CloseWriter (NewWriter outFile)) r1; Ev (Close outFile) r2])%list ->
    match res with
    | None => Forall unfailed body
    | Some e =>
        exists pre stop,
          body = (pre ++ stop)%list /\ Forall unfailed pre
          /\ stops_with (NewWriter outFile) e stop
    end.
Proof.
  intros Hcr. unfold ZipFiles. unfold bind at 1. cbn [Printf]. unfold bind at 1.
  erewrite fs_invoke_answer by exact Hcr. cbn [w_log w_trace w_env].
  unfold bind at 1.
  match goal with |- context [zipLoop _ _ _ ?w0] =>
    destruct (zipLoop inputPaths outputPath (NewWriter outFile) w0) as [res0 wb] eqn:Hz;
    destruct (zipLoop_stops _ _ _ _ _ _ Hz) as (body0 & Etr & Hres)
  end.
  cbn [w_trace] in Etr.
  assert (exists wc, (match res0 with
                      | None => Printf "Successfully added %d files (at %s) into output zip file at path '%s'."
                                  [LInt (len inputPaths); LStrs inputPaths; LStr outputPath]
                      | Some _ => ret tt
                      end) wb = (tt, wc)
                     /\ w_trace wc = w_trace wb /\ w_env wc = w_env wb) as (wc & Hlog & Htc & Hec).
  { destruct res0; cbn [Printf ret]; eauto. }
  unfold bind at 1. rewrite Hlog. unfold bind at 1.
  destruct (handle (CloseWriter (NewWriter outFile)) (w_env wc)) as [r1' e2] eqn:H1.
  erewrite fs_invoke_answer by exact H1. unfold bind at 1.
  destruct (handle (Close outFile) e2) as [r2' e3] eqn:H2.
  erewrite fs_invoke_answer by exact H2. cbn [ret w_log w_trace w_env].
  intros [= <- <-] body r1 r2. cbn [w_trace]. rewrite Htc, Etr, <- !app_assoc.
  intros Heq. apply app_inv_head in Heq. cbn [app] in Heq.
  injection Heq as Heq.
  apply (app_inj_2 body0 body) in Heq as [<- _]; [exact Hres | reflexivity].
Qed.

(** X14. [ZipFiles] stops at the first failure.  When the output file
    cannot be created it returns that error and makes no other call.  The
    input paths it tries to open are the first ones of the list, in order;
    when it returns nil the output file was created, every input path was
    opened, and no creation, open or copy failed.  When it returns an
    error after creating the output file, its calls are the creation,
    calls of which none failed, then the failure - the open that gave the
    error, or an open, the copy that gave the error and the close of that
    input file - and straight after it the two deferred closes: nothing is
    opened or copied after a failed open or copy. *)
Theorem ZipFiles_first_failure (inputPaths : list string)
    (outputPath : string) (w : World) :
  let cr := handle (Create outputPath) (w_env w) in
  let outFile := fst (fst cr) in
  exists tr,
    effects w tr (snd (ZipFiles inputPaths outputPath w))
    /\ tried tr `prefix_of` inputPaths
    /\ (forall e, snd (fst cr) = Some e ->
          fst (ZipFiles inputPaths outputPath w) = Some e
          /\ map call_of tr = [Create outputPath])
    /\ (fst (ZipFiles inputPaths outputPath w) = None ->
          snd (fst cr) = None
          /\ tried tr = inputPaths
          /\ length (opened tr) = length inputPaths
          /\ Forall unfailed tr)
    /\ (forall e, snd (fst cr) = None ->
          fst (ZipFiles inputPaths outputPath w) = Some e ->
          exists pre stop r1 r2,
            tr = ([Ev (Create outputPath) (outFile, None)] ++ pre ++ stop
                  ++ [Ev (CloseWriter (NewWriter outFile)) r1;
                      Ev (Close outFile) r2])%list
            /\ Forall unfailed pre
            /\ stops_with (NewWriter outFile) e stop).
Proof.
  intros cr outFile0. subst outFile0.
  destruct cr as [[outFile r0] e1] eqn:Hcr. cbn [fst snd].
  destruct r0 as [e|].
  { destruct (ZipFiles_create_failed inputPaths _ _ _ _ _ Hcr) as (lg & ->).
    cbn [fst snd]. exists [Ev (Create outputPath) (outFile, Some e)].
    split; [by eapply fs_effects_invoke|]. split; [apply prefix_nil|].
    split; [by intros ? [= <-]|]. split; [intros [=] | intros ? [=]]. }
  destruct (ZipFiles inputPaths outputPath w) as [res w'] eqn:Hrun.
  destruct (ZipFiles_run _ _ _ _ _ _ _ Hcr Hrun)
    as (body & r1 & r2 & E & _ & Hpre & Hnil & _).
  pose proof (ZipFiles_stops _ _ _ _ _ _ _ Hcr Hrun body r1 r2 (proj1 E)) as Hstop.
  exists ([Ev (Create outputPath) (outFile, None)] ++ body
          ++ [Ev (CloseWriter (NewWriter outFile)) r1; Ev (Close outFile) r2])%list.
  assert (Htried : tried ([Ev (Create outputPath) (outFile, None)] ++ body
                    ++ [Ev (CloseWriter (NewWriter outFile)) r1; Ev (Close outFile) r2])
                   = tried body).
  { unfold tried. rewrite !flat_map_app. simpl. by rewrite app_nil_r. }
  assert (Hopened : opened ([Ev (Create outputPath) (outFile, None)] ++ body
                    ++ [Ev (CloseWriter (NewWriter outFile)) r1; Ev (Close outFile) r2])
                   = opened body).
  { unfold opened. rewrite !flat_map_app. simpl. by rewrite app_nil_r. }
  split; [exact E|]. rewrite Htried, Hopened. split; [exact Hpre|].
  split; [by intros ? [=]|]. cbn [fst]. split.
  - intros Hn. subst res. destruct (Hnil eq_refl) as [Ht Hl].
    split; [done|]. split; [exact Ht|]. split; [exact Hl|].
    apply Forall_app. split; [repeat first [exact I | constructor]|].
    apply Forall_app. split; [exact Hstop|]. repeat first [exact I | constructor].
  - intros e _ ->. destruct Hstop as (pre & stop & -> & Hok & Hst).
    exists pre, stop, r1, r2. split; [by rewrite <- !app_assoc|]. by split.
Qed.

(** *** [CountLinesInFile] *)

Lemma countNewlines_app a b : countNewlines (a ++ b) = countNewlines a + countNewlines b.
Proof. unfold countNewlines, len. rewrite List.filter_app, length_app. lia. Qed.

Lemma countNewlines_nonneg b : 0 <= countNewlines b.
Proof. unfold countNewlines, len. lia. Qed.

Lemma wrap64_small z : - 2 ^ 63 <= z < 2 ^ 63 -> wrap64 z = z.
Proof. intros H. unfold wrap64. rewrite Z.mod_small; lia. Qed.

Lemma countLoop_drains file e chunks last err e' :
  drains file e chunks last err e' ->
  forall fuel count w,
    w_env w = e -> (length chunks < fuel)%nat ->
    0 <= count -> count + countNewlines (concat chunks ++ last) < 2 ^ 63 ->
    fst (countLoop fuel file count w)
    = Some (count + countNewlines (concat chunks ++ last), err).
Proof.
  induction 1 as [e b e' Hr | e b err e' Hr | e b e1 chunks last err e' Hr _ IH];
    intros fuel count w He Hfuel Hc Hb; (destruct fuel as [|fuel]; [simpl in Hfuel; lia|]);
    cbn [countLoop]; unfold bind; subst e;
    erewrite fs_invoke_answer by exact Hr.
  - simpl in Hb |- *. pose proof (countNewlines_nonneg b).
    rewrite wrap64_small by lia. done.
  - simpl in Hb |- *. pose proof (countNewlines_nonneg b).
    rewrite wrap64_small by lia. done.
  - simpl concat in Hb |- *. rewrite <- app_assoc, countNewlines_app in Hb |- *.
    pose proof (countNewlines_nonneg b).
    pose proof (countNewlines_nonneg (concat chunks ++ last)).
    rewrite wrap64_small by lia.
    rewrite IH; [f_equal; f_equal; lia | done | simpl in Hfuel; lia | lia | lia].
Qed.

(** X15. When the file opens and its reads give some chunks and then end
    with [io.EOF] or with an error, [CountLinesInFile] returns the number
    of newline bytes in everything read - the bytes that came with the
    last read included - and nil for [io.EOF], the error otherwise.  (The
    count is below 2^63, the range of a Go int; the model follows the loop
    for more rounds than there are chunks.) *)
Theorem CountLinesInFile_counts (fuel : nat) (filePath : string) (w : World)
    (file : File) (e0 e' : Env) (chunks : list (list Byte.byte))
    (last : list Byte.byte) (err : option error) :
  handle (Open filePath) (w_env w) = ((file, None), e0) ->
  drains file e0 chunks last err e' ->
  countNewlines (concat chunks ++ last) < 2 ^ 63 ->
  (length chunks < fuel)%nat ->
  fst (CountLinesInFile fuel filePath w)
  = Some (countNewlines (concat chunks ++ last), err).
Proof.
  intros Ho Hdr Hb Hfuel. unfold CountLinesInFile, bind.
  erewrite fs_invoke_answer by exact Ho. cbv beta iota.
  rewrite (countLoop_drains _ _ _ _ _ _ Hdr); [done | done | done | lia | lia].
Qed.

Lemma countLoop_reads file fuel :
  forall count w res w',
    countLoop fuel file count w = (res, w') ->
    exists tr, effects w tr w' /\ Forall (fun ev => read_call (call_of ev)) tr.
Proof.
  induction fuel as [|fuel IH]; intros count w res w'; cbn [countLoop].
  - intros [= <- <-]. exists []. split; [apply fs_effects_refl | constructor].
  - unfold bind.
    destruct (handle (Read file bufSize) (w_env w)) as [[b r] e1] eqn:Hr.
    erewrite fs_invoke_answer by exact Hr.
    destruct r as [| |e].
    + intros Hrest. destruct (IH _ _ _ _ Hrest) as (tr & E & Hall).
      exists (Ev (Read file bufSize) (b, RNil) :: tr). split.
      * eapply (fs_effects_trans _ [_]); [| exact E]. by eapply fs_effects_invoke.
      * constructor; [exact I | done].
    + cbn [ret]. intros [= <- <-]. exists [Ev (Read file bufSize) (b, REOF)].
      split; [by eapply fs_effects_invoke | repeat first [exact I | constructor]].
    + cbn [ret]. intros [= <- <-]. exists [Ev (Read file bufSize) (b, RErr e)].
      split; [by eapply fs_effects_invoke | repeat first [exact I | constructor]].
Qed.

(** X16. [CountLinesInFile] never closes the file it opens: its calls are
    the open and, after it, reads only, however it ends.  When the open
    fails it returns -1 with that error and reads nothing. *)
Theorem CountLinesInFile_never_closes (fuel : nat) (filePath : string)
    (w : World) :
  let op := handle (Open filePath) (w_env w) in
  exists reads,
    effects w (Ev (Open filePath) (fst op) :: reads)
      (snd (CountLinesInFile fuel filePath w))
    /\ Forall (fun ev => read_call (call_of ev)) reads
    /\ (forall e, snd (fst op) = Some e ->
          fst (CountLinesInFile fuel filePath w) = Some (-1, Some e)
          /\ reads = []).
Proof.
  intros op. destruct op as [[file r] e1] eqn:Ho. cbn [fst snd].
  destruct (CountLinesInFile fuel filePath w) as [res w'] eqn:Hrun.
  unfold CountLinesInFile, bind in Hrun. erewrite fs_invoke_answer in Hrun by exact Ho.
  destruct r as [e|].
  - cbn [ret] in Hrun. injection Hrun as <- <-. exists []. cbn [fst snd].
    split; [by eapply fs_effects_invoke|]. split; [constructor|]. by intros ? [= <-].
  - destruct (countLoop_reads _ _ _ _ _ _ Hrun) as (tr & E & Hall).
    exists tr. cbn [snd]. split; [| split; [done | by intros ? [=]]].
    eapply (fs_effects_trans _ [_]); [| exact E]. by eapply fs_effects_invoke.
Qed.
End Facts.
End FsFacts.

(** ** Witnesses of the further properties *)

Lemma PrepareFromInputFile_panics_before_reset_witness :
  let r := PrepareFromInputFile "in.hex" "hex" MoreSim.conf_zero (Sim.world Sim.outside) in
  fst r = Panic "runtime error: integer divide by zero"
  /\ Sim.workspace (w_env (snd r)) = ["out/model/old"; "out/ping/old"]
  /\ exists tr, effects (Sim.world Sim.outside) tr (snd r) /\ quiet_events tr.
Proof.
  intros r. split; [reflexivity|]. split; [reflexivity|].
  apply (PrepareFromInputFile_panics_before_reset "in.hex" "hex" MoreSim.conf_zero
           (Sim.world Sim.outside) "runtime error: integer divide by zero").
  reflexivity.
Defined.

Lemma PrepareFromInputFile_bootstrap_failure_witness :
  let w := Sim.world MoreSim.save_fails in
  let r := PrepareFromInputFile "in.hex" "hex" Sim.conf w in
  fst r = Ok (Some (mkError "disk full"))
  /\ Sim.workspace (w_env (snd r)) = []
  /\ exists g n path,
       effects w
         (g ++ [Ev (DeleteAllFilesInDirectory "out") (n, None);
                Ev (GetTimedFilePath "out/model") path;
                Ev (Save "Model from in.hex" path) (Some (mkError "disk full"))]) (snd r)
       /\ quiet_events g.
Proof.
  intros w r.
  pose (w1 := snd (confirmCleanUpExisting "in.hex" Sim.conf w)).
  pose (w2 := snd (getIPsFromFile "in.hex" "hex" w1)).
  pose (w3 := snd (removeDuplicateIPs [1; 2; 3; 2]%N Sim.conf w2)).
  pose (w4 := snd (filterOutHighEntropyIPs [1; 2]%N Sim.conf w3)).
  pose (wg := snd (confirmTooFew 1 Sim.conf w4)).
  pose (wa := snd (cleanUpWorkingDirectories Sim.conf wg)).
  pose (wb := snd (createBlankModel "in.hex" Sim.conf wa)).
  destruct (PrepareFromInputFile_bootstrap_failure "in.hex" "hex" Sim.conf
              w wg wa wb [1]%N (mkError "disk full"))
    as (Hrun & g & n & path & E & Q).
  - exists w1, [1; 2; 3; 2]%N, w2, [1; 2]%N, w3, w4. repeat split; reflexivity.
  - reflexivity.
  - reflexivity.
  - split; [reflexivity|]. split; [reflexivity|].
    exists g, n, path. subst r. rewrite Hrun. by split.
Defined.

Lemma PrepareFromInputFile_nil_mutations_witness :
  let w := Sim.world Sim.outside in
  exists tr addrs wg modelPath pingPath,
    effects w tr (snd (PrepareFromInputFile "in.hex" "hex" Sim.conf w))
    /\ gates_passed "in.hex" "hex" Sim.conf w addrs wg
    /\ List.filter is_mutation (map call_of tr)
       = [DeleteAllFilesInDirectory "out";
          Save "Model from in.hex" modelPath;
          WriteIPsToHexFile pingPath addrs;
          SetStateFile "out/state" "NETWORK_GROUP"].
Proof.
  intros w.
  apply (PrepareFromInputFile_nil_mutations "in.hex" "hex" Sim.conf w). reflexivity.
Defined.

Lemma filterOutHighEntropyIPs_idempotent_witness :
  (InputEmitFreq Sim.conf <> 0 \/ [1; 2; 3]%N = [])
  /\ exists out w',
       filterOutHighEntropyIPs [1; 2; 3]%N Sim.conf (Sim.world Sim.outside) = (Ok out, w')
       /\ fst (filterOutHighEntropyIPs out Sim.conf w') = Ok out
       /\ (NoDup (map Sim.addrs [1; 2; 3]%N) -> NoDup (map Sim.addrs out)).
Proof.
  split; [left; discriminate|].
  apply (filterOutHighEntropyIPs_idempotent Sim.conf [1; 2; 3]%N (Sim.world Sim.outside)).
  left; discriminate.
Defined.

Lemma filterOutHighEntropyIPs_log_witness :
  (InputEmitFreq Sim.conf <> 0 \/ [1; 2; 3]%N = [])
  /\ exists out w',
       filterOutHighEntropyIPs [1; 2; 3]%N Sim.conf (Sim.world Sim.outside) = (Ok out, w')
       /\ w_log w'
          = [LogLine "Now removing high entropy IP addresses from list of length %d (%f threshold, %d bits)."
               [LInt 3; LFloat (S754_finite false 5 0); LInt 64];
             LogLine "Processing %d out of %d for high entropy IPs." [LInt 0; LInt 3];
             LogLine "Processing %d out of %d for high entropy IPs." [LInt 2; LInt 3];
             LogLine "Resulting list is %d long (removed %d high entropy addresses)."
               [LInt (len out); LInt (3 - len out)]]
       /\ 0 <= 3 - len out.
Proof.
  split; [left; discriminate|].
  apply (filterOutHighEntropyIPs_log Sim.conf [1; 2; 3]%N (Sim.world Sim.outside)).
  left; discriminate.
Defined.

Lemma PrepareFromInputFile_cleanup_declined_witness :
  let w := Sim.world MoreSim.declines_cleanup in
  PrepareFromInputFile "in.hex" "hex" Sim.conf w
  = (Ok (Some (mkError (cleanUpErrMsg Sim.conf))),
     mkWorld Sim.addrs []
       [Ev (PromptForApproval (cleanUpPrompt "in.hex") (cleanUpErrMsg Sim.conf))
           (Some (mkError (cleanUpErrMsg Sim.conf)))]
       (Sim.outside_with [] None None None)).
Proof.
  intros w.
  apply (PrepareFromInputFile_cleanup_declined "in.hex" "hex" Sim.conf w). reflexivity.
Defined.

Lemma PrepareFromInputFile_read_failure_witness :
  let w := Sim.world MoreSim.read_fails in
  "text" <> "bin"
  /\ fst (PrepareFromInputFile "in.hex" "text" Sim.conf w)
     = Ok (Some (mkError "malformed line"))
  /\ map call_of (w_trace (snd (PrepareFromInputFile "in.hex" "text" Sim.conf w)))
     = [PromptForApproval (cleanUpPrompt "in.hex") (cleanUpErrMsg Sim.conf);
        ReadIPsFromHexFile "in.hex"]
  /\ w_log (snd (PrepareFromInputFile "in.hex" "text" Sim.conf w))
     = [LogLine "Error thrown when reading addresses from file '%s': %e"
          [LStr "in.hex"; LErr (mkError "malformed line")]]
  /\ getIPsFromFile "in.hex" "text" (Sim.world Sim.outside)
     = (Ok ([1; 2; 3; 2]%N, None),
        mkWorld Sim.addrs
          [LogLine "Successfully read %d addresses from %s file at '%s'."
             [LInt 4; LStr "text"; LStr "in.hex"]]
          [Ev (ReadIPsFromHexFile "in.hex") ([1; 2; 3; 2]%N, None)]
          Sim.outside).
Proof.
  intros w. split; [discriminate|].
  destruct (PrepareFromInputFile_read_failure "in.hex" "text" Sim.conf)
    as [Hget Hrun]; [discriminate|].
  rewrite (Hrun w (Sim.with_answers MoreSim.read_fails [true])
             (Sim.with_answers MoreSim.read_fails [true]) []
             (mkError "malformed line")) by reflexivity.
  do 3 (split; [reflexivity|]).
  rewrite (Hget (Sim.world Sim.outside) [1; 2; 3; 2]%N None Sim.outside)
    by reflexivity.
  reflexivity.
Defined.

Module FsWitnesses.
Import Fs.

Lemma GetMostRecentFileFromDirectory_newest_witness :
  exists recent,
    fst (GetMostRecentFileFromDirectory "d" (FsSim.world FsSim.disk)) = (recent, None)
    /\ (((forall fi, In fi FsSim.listing -> IsRegular fi = true -> Unix fi <= 0)
         /\ recent = "")
        \/ exists pre fj post,
             FsSim.listing = (pre ++ fj :: post)%list
             /\ IsRegular fj = true /\ 0 < Unix fj /\ recent = Name fj
             /\ (forall fi, In fi pre -> IsRegular fi = true -> Unix fi < Unix fj)
             /\ (forall fi, In fi post -> IsRegular fi = true -> Unix fi <= Unix fj)).
Proof.
  apply (FsFacts.GetMostRecentFileFromDirectory_newest "d" (FsSim.world FsSim.disk)
           FsSim.listing FsSim.disk).
  reflexivity.
Defined.

Lemma GetNonMostRecentFilesFromDirectory_others_witness :
  exists names,
    fst (GetNonMostRecentFilesFromDirectory "d" (FsSim.world FsSim.disk)) = (names, None)
    /\ names = ["a.txt"; "dir"; "c.txt"]
    /\ (length names + 1 = length FsSim.listing)%nat.
Proof.
  destruct (FsFacts.GetNonMostRecentFilesFromDirectory_others "d" (FsSim.world FsSim.disk)
              FsSim.listing FsSim.listing FsSim.disk FsSim.disk "b.txt")
    as (names & Hrun & -> & _ & _ & Hlen);
    [reflexivity | reflexivity | discriminate | reflexivity |].
  eexists. split; [exact Hrun|]. split; [reflexivity|].
  apply Hlen; [reflexivity|]. apply (bool_decide_unpack _). reflexivity.
Defined.

Lemma GetNonMostRecentFilesFromDirectory_none_witness :
  fst (GetNonMostRecentFilesFromDirectory "d" (FsSim.world FsSim.stale)) = ([], None).
Proof.
  rewrite (FsFacts.GetNonMostRecentFilesFromDirectory_none "d" (FsSim.world FsSim.stale)
             (fst (FsSim.entries FsSim.stale)) FsSim.stale); [reflexivity | reflexivity |].
  intros fi [<- | [<- | []]]; simpl; [discriminate | lia].
Defined.

Lemma ZipFiles_closes_what_it_opens_witness :
  let w := FsSim.world FsSim.disk in
  exists body r1 r2,
    effects w ([Ev (Create "out.z") (3, None)] ++ body
               ++ [Ev (CloseWriter 3) r1; Ev (Close 3) r2])
      (snd (ZipFiles ["x"; "gone.txt"; "y"] "out.z" w))
    /\ Forall (fun ev => input_call (call_of ev)) body
    /\ closed body = opened body.
Proof.
  intros w.
  apply (FsFacts.ZipFiles_closes_what_it_opens ["x"; "gone.txt"; "y"] "out.z" w 3
           (FsSim.fresh FsSim.disk)).
  reflexivity.
Defined.

(** [ZipFiles] on a list whose second file is missing: the first file is
    added, the open of the second fails, and the third is never tried. *)
Lemma ZipFiles_first_failure_missing_file :
  let w := FsSim.world FsSim.disk in
  fst (ZipFiles ["x"; "gone.txt"; "y"] "out.z" w) = Some (mkError "no such file")
  /\ map call_of (w_trace (snd (ZipFiles ["x"; "gone.txt"; "y"] "out.z" w)))
     = [Create "out.z"; Open "x"; Copy 3 4; Close 4; Open "gone.txt";
        CloseWriter 3; Close 3]
  /\ exists pre stop r1 r2,
       w_trace (snd (ZipFiles ["x"; "gone.txt"; "y"] "out.z" w))
       = ([Ev (Create "out.z") (3, None)] ++ pre ++ stop
          ++ [Ev (CloseWriter 3) r1; Ev (Close 3) r2])%list
       /\ Forall unfailed pre
       /\ stops_with 3 (mkError "no such file") stop.
Proof.
  intros w. split; [reflexivity|]. split; [reflexivity|].
  destruct (FsFacts.ZipFiles_first_failure ["x"; "gone.txt"; "y"] "out.z" w)
    as (tr & [Etr _] & _ & _ & _ & Hstop).
  destruct (Hstop (mkError "no such file") eq_refl eq_refl)
    as (pre & stop & r1 & r2 & -> & Hok & Hst).
  exists pre, stop, r1, r2. split; [exact Etr|]. by split.
Defined.

(** On a full disk the first copy fails: that input file is closed and no
    other is opened. *)
Lemma ZipFiles_full_disk :
  let w := FsSim.world FsSim.disk in
  fst (@ZipFiles _ FsFullSim.handler ["x"; "y"] "out.z" w)
  = Some (mkError "no space left on device")
  /\ map call_of (w_trace (snd (@ZipFiles _ FsFullSim.handler ["x"; "y"] "out.z" w)))
     = [Create "out.z"; Open "x"; Copy 3 4; Close 4; CloseWriter 3; Close 3].
Proof. by split. Qed.

Lemma CountLinesInFile_counts_witness :
  fst (CountLinesInFile 3 "x" (FsSim.world FsSim.disk)) = Some (3, None).
Proof.
  apply (FsFacts.CountLinesInFile_counts 3 "x" (FsSim.world FsSim.disk) 3
           (FsSim.fresh FsSim.disk)
           (FsSim.mkEnv (FsSim.listing, None) ["gone.txt"] [] 4)
           [[Byte.x61; Byte.x0a; Byte.x62]; [Byte.x0a; Byte.x0a]] [Byte.x63] None).
  - reflexivity.
  - eapply drains_more; [reflexivity|]. eapply drains_more; [reflexivity|].
    apply drains_eof. reflexivity.
  - reflexivity.
  - simpl. lia.
Defined.

End FsWitnesses.
